(** * cloudflare-workers-unfurl: a shallow embedding of [src/unfurl.js]

    The development follows the source file top to bottom:
    - the JavaScript values and string primitives the code relies on;
    - the three HTMLRewriter handlers [TextExtractor], [MetaExtractor]
      and [IconExtractor] as records with their methods;
    - [unfurl], split at the places where the source itself is split
      (the parameter check, the [try] block, the selection of the four
      fields), with the network and the platform's [URL] class taken as
      parameters;
    - [handleUnfurlRequest] and the [Response] objects it builds.

    Strings are [String.string]; every string primitive used by the code
    ([startsWith] with an ASCII needle, [+=], [===]) behaves the same on
    the UTF-8 bytes as on JavaScript's UTF-16 code units. *)

From Stdlib Require Import String Ascii Bool List.
From stdpp Require Import base option gmap strings.

Local Open Scope string_scope.

(** ** JavaScript values and primitives *)

(** The values a caller can hand to [unfurl].  Only [typeof] and, for
    strings, the contents are ever inspected. *)
Inductive JSValue : Type :=
  | JSUndefined
  | JSNull
  | JSBoolean (b : bool)
  | JSNumber (n : Z)
  | JSString (s : string)
  | JSObject (fields : list (string * string)).

Inductive JSType : Type :=
  | TUndefined | TObject | TBoolean | TNumber | TString.

Definition typeof (v : JSValue) : JSType :=
  match v with
  | JSUndefined => TUndefined
  | JSNull => TObject
  | JSBoolean _ => TBoolean
  | JSNumber _ => TNumber
  | JSString _ => TString
  | JSObject _ => TObject
  end.

Definition is_string (v : JSValue) : bool :=
  match typeof v with TString => true | _ => false end.

(** [s.startsWith(needle)] *)
Definition startsWith (s needle : string) : bool := String.prefix needle s.

(** Truthiness of a [string | null | undefined] value: [null],
    [undefined] and the empty string are falsy. *)
Definition truthy (v : option string) : bool :=
  match v with
  | Some (String _ _) => true
  | _ => false
  end.

(** [a ?? b] on [string | null | undefined]; [None] stands for both
    nullish values. *)
Definition nullish {A : Type} (a b : option A) : option A :=
  match a with
  | Some x => Some x
  | None => b
  end.

Infix "??" := nullish (at level 60, right associativity).

(** ** The result types of the source's JSDoc *)

Inductive UnfurlError : Type := bad_param | failed_fetch.

#[global]
Instance UnfurlError_eq_dec : EqDecision UnfurlError.
Proof. solve_decision. Defined.

Record UnfurledData : Type := mkUnfurledData {
  title : option string;
  description : option string;
  image : option string;
  favicon : option string
}.

(** [{ ok, value }] or [{ ok, error }]: an object literal carries the
    properties it was written with and no others. *)
Record Result : Type := mkResult {
  ok : bool;
  value : option UnfurledData;
  error : option UnfurlError
}.

Definition GoodResult (v : UnfurledData) : Result :=
  {| ok := true; value := Some v; error := None |}.

Definition BadResult (e : UnfurlError) : Result :=
  {| ok := false; value := None; error := Some e |}.

(** ** HTMLRewriter: elements and the events of one pass *)

(** An element as the handlers see it: its tag and its attributes in
    document order. *)
Record Element : Type := mkElement {
  tagName : string;
  attributes : list (string * string)
}.

Fixpoint lookup_attribute (attrs : list (string * string)) (name : string)
  : option string :=
  match attrs with
  | [] => None
  | (n, v) :: rest =>
      if String.eqb n name then Some v else lookup_attribute rest name
  end.

(** [element.getAttribute(name)]: the value, or [null] ([None]) when the
    element has no such attribute. *)
Definition getAttribute (el : Element) (name : string) : option string :=
  lookup_attribute (attributes el) name.

(** What the rewriter delivers while it consumes the body: start tags,
    and text chunks together with the tag they sit in. *)
Inductive TagEvent : Type :=
  | ElementStart (el : Element)
  | Text (tag : string) (text : string).

(** [v && test(v)] for a [string | null] value [v]: the string itself
    when the conjunction is truthy. *)
Definition guarded (v : option string) (test : string -> bool)
  : option string :=
  match v with
  | Some s => if truthy v && test s then Some s else None
  | None => None
  end.

(** [obj[key]] followed by [??]: a key that was never written
    ([undefined]) and a key holding [null] are both nullish.  The only
    keys read or written start with [og:] or [twitter:], so none of them
    names a property inherited from [Object.prototype]. *)
Definition prop (obj : gmap string (option string)) (key : string)
  : option string :=
  match obj !! key with
  | Some (Some s) => Some s
  | Some None => None
  | None => None
  end.

(** ** class TextExtractor, lines 129-144 *)
Module TextExtractor.

Record t : Type := mk { string : String.string }.

Definition new : t := {| string := EmptyString |}.

(** [text({ text })] *)
Definition text (this : t) (chunk : String.string) : t :=
  {| string := String.append (string this) chunk |}.

End TextExtractor.

(** ** class MetaExtractor, lines 149-184 *)
Module MetaExtractor.

Record t : Type := mk {
  og : gmap string (option string);
  twitter : gmap string (option string);
  description : option string
}.

Definition new : t := {| og := ∅; twitter := ∅; description := None |}.

(** [element(element)] *)
Definition element (this : t) (el : Element) : t :=
  let property := getAttribute el "property" in
  let name := getAttribute el "name" in
  match guarded property (fun p => startsWith p "og:") with
  | Some p =>
      {| og := <[p := getAttribute el "content"]> (og this);
         twitter := twitter this;
         description := description this |}
  | None =>
      match guarded name (fun n => startsWith n "twitter:") with
      | Some n =>
          {| og := og this;
             twitter := <[n := getAttribute el "content"]> (twitter this);
             description := description this |}
      | None =>
          if decide (name = Some "description") then
            {| og := og this;
               twitter := twitter this;
               description := getAttribute el "content" |}
          else this
      end
  end.

End MetaExtractor.

(** ** class IconExtractor, lines 189-213 *)
Module IconExtractor.

Record t : Type := mk {
  appleIcon : option string;
  icon : option string
}.

Definition new : t := {| appleIcon := None; icon := None |}.

(** [element(element)] *)
Definition element (this : t) (el : Element) : t :=
  if decide (getAttribute el "rel" = Some "icon") then
    {| appleIcon := appleIcon this; icon := getAttribute el "href" |}
  else if decide (getAttribute el "rel" = Some "apple-touch-icon") then
    {| appleIcon := getAttribute el "href"; icon := icon this |}
  else this.

End IconExtractor.

(** ** One pass of the rewriter, lines 49-59 *)

(** [meta$], [title$] and [icon$]. *)
Record Handlers : Type := mkHandlers {
  meta_ : MetaExtractor.t;
  title_ : TextExtractor.t;
  icon_ : IconExtractor.t
}.

Definition new_handlers : Handlers :=
  {| meta_ := MetaExtractor.new;
     title_ := TextExtractor.new;
     icon_ := IconExtractor.new |}.

(** [.on("meta", meta$).on("title", title$).on("link", icon$)]: the
    rewriter calls [element] on the handlers that have one and [text] on
    the one that has it; [title$] has no [element] method and the other
    two have no [text] method. *)
Definition dispatch (h : Handlers) (ev : TagEvent) : Handlers :=
  match ev with
  | ElementStart el =>
      if String.eqb (tagName el) "meta" then
        {| meta_ := MetaExtractor.element (meta_ h) el;
           title_ := title_ h; icon_ := icon_ h |}
      else if String.eqb (tagName el) "link" then
        {| meta_ := meta_ h; title_ := title_ h;
           icon_ := IconExtractor.element (icon_ h) el |}
      else h
  | Text tag chunk =>
      if String.eqb tag "title" then
        {| meta_ := meta_ h;
           title_ := TextExtractor.text (title_ h) chunk;
           icon_ := icon_ h |}
      else h
  end.

Definition transform (h : Handlers) (events : list TagEvent) : Handlers :=
  fold_left dispatch events h.

(** ** Effects: calls made, and how the promise settles *)

Inductive Call : Type :=
  | CallUnfurl (url : JSValue)
  | CallFetch (url : string).

Inductive Settled (A : Type) : Type :=
  | Fulfilled (a : A)
  | Rejected.
Arguments Fulfilled {A} a.
Arguments Rejected {A}.

(** An [async] function run to the end: the calls it made to the
    collaborators, in order, and the state of the promise it returned. *)
Record Run (A : Type) : Type := mkRun {
  calls : list Call;
  settled : Settled A
}.
Arguments mkRun {A} calls settled.
Arguments calls {A} r.
Arguments settled {A} r.

Definition ret {A : Type} (a : A) : Run A :=
  {| calls := []; settled := Fulfilled a |}.

(** What [fetch(url)] and the body it returns do during one call. *)
Inductive Fetched : Type :=
  | FetchThrows
  | Streamed (events : list TagEvent) (completes : bool).

(** ** function unfurl, lines 37-96 *)

(** [url.startsWith(needle)] on the parameter; the call is only
    evaluated when [typeof url] is ["string"]. *)
Definition url_startsWith (url : JSValue) (needle : string) : bool :=
  match url with
  | JSString s => startsWith s needle
  | _ => false
  end.

(** The condition of the first [if], lines 38-42. *)
Definition rejects_param (url : JSValue) : bool :=
  negb (is_string url)
  || negb (url_startsWith url "http://")
  || negb (url_startsWith url "https://").

(** Lines 66-78: the four [??] chains. *)
Definition title_candidate (h : Handlers) : option string :=
  prop (MetaExtractor.og (meta_ h)) "og:title"
  ?? prop (MetaExtractor.twitter (meta_ h)) "twitter:title"
  ?? Some (TextExtractor.string (title_ h))
  ?? None.

Definition description_candidate (h : Handlers) : option string :=
  prop (MetaExtractor.og (meta_ h)) "og:description"
  ?? prop (MetaExtractor.twitter (meta_ h)) "twitter:description"
  ?? MetaExtractor.description (meta_ h)
  ?? None.

Definition image_candidate (h : Handlers) : option string :=
  prop (MetaExtractor.og (meta_ h)) "og:image:secure_url"
  ?? prop (MetaExtractor.og (meta_ h)) "og:image"
  ?? prop (MetaExtractor.twitter (meta_ h)) "twitter:image"
  ?? None.

Definition favicon_candidate (h : Handlers) : option string :=
  IconExtractor.appleIcon (icon_ h)
  ?? IconExtractor.icon (icon_ h)
  ?? None.

(** [x && !x?.startsWith("http")], the condition of lines 80 and 83. *)
Definition needs_base (x : option string) : bool :=
  truthy x
  && negb (match x with Some s => startsWith s "http" | None => false end).

Section Unfurl.

(** The network: what [fetch(url)] yields and how reading the body
    goes. *)
Variable fetch : string -> Fetched.

(** The platform's [new URL(input, base).href]; [None] when the
    constructor throws a [TypeError]. *)
Variable URL_href : string -> string -> option string.

(** The [try] block, lines 53-62: [None] when control reaches
    [catch].  The handlers are fed every event that arrives before the
    stream ends or fails. *)
Definition try_transform (url : string) : option Handlers :=
  match fetch url with
  | FetchThrows => None
  | Streamed events completes =>
      let h := transform new_handlers events in
      if completes then Some h else None
  end.

(** Lines 80-85, for one of the two variables: the new value of the
    variable, or [None] when [new URL] throws. *)
Definition absolute (x : option string) (url : string)
  : option (option string) :=
  if needs_base x then
    match x with
    | Some s =>
        match URL_href s url with
        | Some href => Some (Some href)
        | None => None
        end
    | None => Some x
    end
  else Some x.

(** Lines 65-95. *)
Definition select (url : string) (h : Handlers) : Settled Result :=
  let title := title_candidate h in
  let description := description_candidate h in
  match absolute (image_candidate h) url with
  | None => Rejected
  | Some image =>
      match absolute (favicon_candidate h) url with
      | None => Rejected
      | Some favicon =>
          Fulfilled (GoodResult {| title := title;
                                   description := description;
                                   image := image;
                                   favicon := favicon |})
      end
  end.

(** Lines 46-95: [unfurl] from the point where the parameter check
    has let a string through. *)
Definition unfurl_checked (url : string) : Run Result :=
  {| calls := [CallFetch url];
     settled :=
       match try_transform url with
       | None => Fulfilled (BadResult failed_fetch)
       | Some h => select url h
       end |}.

Definition unfurl (url : JSValue) : Run Result :=
  if rejects_param url then ret (BadResult bad_param)
  else
    match url with
    | JSString s => unfurl_checked s
    | _ => (* not reached: [rejects_param] holds off strings *)
        {| calls := []; settled := Rejected |}
    end.

End Unfurl.

(** ** function handleUnfurlRequest, lines 106-124 *)

(** The one thing read from the request:
    [new URL(request.url).searchParams.get("url")], [None] for [null]. *)
Record Request : Type := mkRequest {
  searchParams_url : option string
}.

(** [new Response(body, init)]: [status] is 200 unless [init] sets it;
    [content_type] is the header given in [init], if any. *)
Record Response : Type := mkResponse {
  body : string;
  status : nat;
  content_type : option string
}.

Definition dquote : ascii := "034"%char.

Definition hex_digit (n : nat) : ascii :=
  nth n ["0"; "1"; "2"; "3"; "4"; "5"; "6"; "7"; "8"; "9";
         "a"; "b"; "c"; "d"; "e"; "f"]%char "0"%char.

(** One code unit of a string under [JSON.stringify]. *)
Definition JSON_escape (c : ascii) : string :=
  match nat_of_ascii c with
  | 8 => "\b"
  | 9 => "\t"
  | 10 => "\n"
  | 12 => "\f"
  | 13 => "\r"
  | 34 => String "\" (String dquote EmptyString)
  | 92 => "\\"
  | n =>
      if Nat.ltb n 32 then
        String.append "\u00"
          (String (hex_digit (n / 16))
             (String (hex_digit (n mod 16)) EmptyString))
      else String c EmptyString
  end.

Fixpoint JSON_escape_all (s : string) : string :=
  match s with
  | EmptyString => EmptyString
  | String c rest => String.append (JSON_escape c) (JSON_escape_all rest)
  end.

Definition JSON_quote (s : string) : string :=
  String dquote (String.append (JSON_escape_all s) (String dquote EmptyString)).

(** A property of the serialized object; a property whose value is
    [undefined] is left out. *)
Definition JSON_member (key : string) (v : option string) : list string :=
  match v with
  | Some s => [String.append (JSON_quote key) (String.append ":" (JSON_quote s))]
  | None => []
  end.

(** [JSON.stringify(value)] for the object literal of lines 89-94. *)
Definition JSON_stringify (v : UnfurledData) : string :=
  String.append "{"
    (String.append
       (String.concat ","
          (JSON_member "title" (title v)
           ++ JSON_member "description" (description v)
           ++ JSON_member "image" (image v)
           ++ JSON_member "favicon" (favicon v))%list)
       "}").

(** Lines 115-123.  [JSON.stringify(undefined)] is [undefined], which
    makes an empty body. *)
Definition respond (result : Result) : Response :=
  if ok result then
    {| body := match value result with
               | Some v => JSON_stringify v
               | None => EmptyString
               end;
       status := 200;
       content_type := Some "application/json" |}
  else if decide (error result = Some bad_param) then
    {| body := "Bad URL query parameter."; status := 400;
       content_type := None |}
  else
    {| body := "Failed to fetch URL."; status := 422;
       content_type := None |}.

Section Handler.

(** The [unfurl] the handler awaits. *)
Variable unfurl_impl : JSValue -> Run Result.

Definition handleUnfurlRequest_with (request : Request) : Run Response :=
  let url := searchParams_url request in
  if negb (truthy url) then
    ret {| body := "Missing URL query parameter."; status := 400;
           content_type := None |}
  else
    match url with
    | Some s =>
        let r := unfurl_impl (JSString s) in
        {| calls := CallUnfurl (JSString s) :: calls r;
           settled :=
             match settled r with
             | Fulfilled result => Fulfilled (respond result)
             | Rejected => Rejected
             end |}
    | None => (* not reached: [null] is falsy *)
        {| calls := []; settled := Rejected |}
    end.

End Handler.

Definition handleUnfurlRequest
    (fetch : string -> Fetched) (URL_href : string -> string -> option string)
    (request : Request) : Run Response :=
  handleUnfurlRequest_with (unfurl fetch URL_href) request.

(** ** The specification's own wording, for comparison with the code *)

(** Section 4.5 of the specification: of the sources of a field, in
    priority order, the first present one wins; with none present the
    field is absent. *)
Fixpoint first_present (sources : list (option string)) : option string :=
  match sources with
  | [] => None
  | Some v :: _ => Some v
  | None :: rest => first_present rest
  end.

(** Section 4.2 of the specification: the rule a [meta] element falls
    under. *)
Inductive MetaRule : Type :=
  | StoreOpenGraph (key : string)
  | StoreTwitter (key : string)
  | StoreDescription
  | IgnoreElement.

(** "attribute is present and its value starts with the literal prefix" *)
Definition present_with_prefix (v : option string) (prefix : string)
  : option string :=
  match v with
  | Some s => if startsWith s prefix then Some s else None
  | None => None
  end.

Definition meta_rule (el : Element) : MetaRule :=
  match present_with_prefix (getAttribute el "property") "og:" with
  | Some p => StoreOpenGraph p
  | None =>
      match present_with_prefix (getAttribute el "name") "twitter:" with
      | Some n => StoreTwitter n
      | None =>
          if decide (getAttribute el "name" = Some "description")
          then StoreDescription
          else IgnoreElement
      end
  end.

Definition apply_meta_rule (this : MetaExtractor.t) (rule : MetaRule)
    (content : option string) : MetaExtractor.t :=
  match rule with
  | StoreOpenGraph key =>
      {| MetaExtractor.og := <[key := content]> (MetaExtractor.og this);
         MetaExtractor.twitter := MetaExtractor.twitter this;
         MetaExtractor.description := MetaExtractor.description this |}
  | StoreTwitter key =>
      {| MetaExtractor.og := MetaExtractor.og this;
         MetaExtractor.twitter := <[key := content]> (MetaExtractor.twitter this);
         MetaExtractor.description := MetaExtractor.description this |}
  | StoreDescription =>
      {| MetaExtractor.og := MetaExtractor.og this;
         MetaExtractor.twitter := MetaExtractor.twitter this;
         MetaExtractor.description := content |}
  | IgnoreElement => this
  end.

(** Section 4.1 of the specification: the text chunks of the [title]
    element, appended in the order they arrive. *)
Fixpoint title_text (events : list TagEvent) : string :=
  match events with
  | [] => EmptyString
  | Text tag chunk :: rest =>
      if String.eqb tag "title"
      then String.append chunk (title_text rest)
      else title_text rest
  | ElementStart _ :: rest => title_text rest
  end.


(** A [meta] element that falls under [rule]. *)
Definition stores_under (rule : MetaRule) (ev : TagEvent) : Prop :=
  match ev with
  | ElementStart el => tagName el = "meta" /\ meta_rule el = rule
  | Text _ _ => False
  end.

(** What the accumulator holds in the place [rule] writes to: [None]
    when nothing was ever written there. *)
Definition stored (rule : MetaRule) (m : MetaExtractor.t)
  : option (option string) :=
  match rule with
  | StoreOpenGraph key => MetaExtractor.og m !! key
  | StoreTwitter key => MetaExtractor.twitter m !! key
  | StoreDescription => Some (MetaExtractor.description m)
  | IgnoreElement => None
  end.

(** ** Sample collaborators for the worked examples *)

Fixpoint until_slash (s : string) : string :=
  match s with
  | EmptyString => EmptyString
  | String c rest =>
      if Ascii.eqb c "/" then EmptyString else String c (until_slash rest)
  end.

(** A stand-in for the platform's [URL] class on the one shape of input
    the examples use: a path-absolute reference against an [https] base
    resolves to the base's origin followed by the reference; any other
    input is reported as a [TypeError]. *)
Definition sample_URL_href (input base : string) : option string :=
  if startsWith base "https://"
     && startsWith input "/" && negb (startsWith input "//")
  then
    Some (String.append "https://"
            (String.append
               (until_slash (String.substring 8 (String.length base - 8) base))
               input))
  else None.

Definition meta_element (attrs : list (string * string)) : TagEvent :=
  ElementStart {| tagName := "meta"; attributes := attrs |}.

Definition link_element (attrs : list (string * string)) : TagEvent :=
  ElementStart {| tagName := "link"; attributes := attrs |}.

(** A network that serves the same document at every address. *)
Definition serve (events : list TagEvent) : string -> Fetched :=
  fun _ => Streamed events true.

(** ** What each handler sees of a pass *)

(** The start tags named [tag], in document order. *)
Fixpoint elements_named (tag : string) (events : list TagEvent)
  : list Element :=
  match events with
  | [] => []
  | ElementStart el :: rest =>
      if String.eqb (tagName el) tag
      then el :: elements_named tag rest
      else elements_named tag rest
  | Text _ _ :: rest => elements_named tag rest
  end.

(** The events some handler is registered for. *)
Definition observed (ev : TagEvent) : bool :=
  match ev with
  | ElementStart el =>
      String.eqb (tagName el) "meta" || String.eqb (tagName el) "link"
  | Text tag _ => String.eqb tag "title"
  end.

(** A [link] element whose [rel] is exactly [rel]. *)
Definition link_with_rel (rel : string) (ev : TagEvent) : Prop :=
  match ev with
  | ElementStart el => tagName el = "link" /\ getAttribute el "rel" = Some rel
  | Text _ _ => False
  end.

(** A value lines 80-85 leave alone: [undefined], the empty string, or a
    string that starts with [http]. *)
Definition kept_as_is (x : option string) : Prop :=
  x = None
  \/ x = Some EmptyString
  \/ exists c, x = Some c /\ startsWith c "http" = true.

(** ** Reading back a response body *)

(** The character an escape letter stands for. *)
Definition JSON_unescape (e : ascii) : option ascii :=
  match nat_of_ascii e with
  | 98 => Some "008"%char
  | 116 => Some "009"%char
  | 110 => Some "010"%char
  | 102 => Some "012"%char
  | 114 => Some "013"%char
  | 34 => Some dquote
  | 92 => Some "\"%char
  | _ => None
  end.

Definition hex_value (c : ascii) : option nat :=
  let n := nat_of_ascii c in
  if Nat.leb 48 n && Nat.leb n 57 then Some (n - 48)
  else if Nat.leb 97 n && Nat.leb n 102 then Some (n - 87)
  else None.

(** Reads a JSON string whose opening quote has been consumed: the
    string it denotes and what follows its closing quote. *)
Fixpoint JSON_unquote (s : string) : option (string * string) :=
  match s with
  | EmptyString => None
  | String c rest =>
      if Ascii.eqb c dquote then Some (EmptyString, rest)
      else if Ascii.eqb c "\" then
        match rest with
        | EmptyString => None
        | String e rest1 =>
            if Ascii.eqb e "u" then
              match rest1 with
              | String z1 (String z2 (String hi (String lo rest2))) =>
                  match hex_value hi, hex_value lo with
                  | Some a, Some b =>
                      if Ascii.eqb z1 "0" && Ascii.eqb z2 "0" then
                        match JSON_unquote rest2 with
                        | Some (t, r) =>
                            Some (String (ascii_of_nat (16 * a + b)) t, r)
                        | None => None
                        end
                      else None
                  | _, _ => None
                  end
              | _ => None
              end
            else
              match JSON_unescape e with
              | Some c' =>
                  match JSON_unquote rest1 with
                  | Some (t, r) => Some (String c' t, r)
                  | None => None
                  end
              | None => None
              end
        end
      else
        match JSON_unquote rest with
        | Some (t, r) => Some (String c t, r)
        | None => None
        end
  end.

(** Reads one ["key":"value"] member: key, value and what follows. *)
Definition JSON_read_member (s : string) : option (string * string * string) :=
  match s with
  | String q rest =>
      if Ascii.eqb q dquote then
        match JSON_unquote rest with
        | Some (key, String colon (String q2 rest2)) =>
            if Ascii.eqb colon ":" && Ascii.eqb q2 dquote then
              match JSON_unquote rest2 with
              | Some (v, r) => Some (key, v, r)
              | None => None
              end
            else None
        | _ => None
        end
      else None
  | EmptyString => None
  end.

(** Reads up to [fuel] members separated by commas and closed by a
    brace. *)
Fixpoint JSON_read_members (fuel : nat) (s : string)
  : option (list (string * string)) :=
  match fuel with
  | O => None
  | S fuel' =>
      match JSON_read_member s with
      | Some (key, v, String c rest) =>
          if Ascii.eqb c "," then
            match JSON_read_members fuel' rest with
            | Some members => Some ((key, v) :: members)
            | None => None
            end
          else if Ascii.eqb c "}" then
            match rest with
            | EmptyString => Some [(key, v)]
            | String _ _ => None
            end
          else None
      | _ => None
      end
  end.

(** A reader for the bodies [JSON_stringify] writes: the four fields a
    client finds in a 200 response, a field without a member being
    absent. *)
Definition JSON_read (s : string) : option UnfurledData :=
  match s with
  | String open rest =>
      if Ascii.eqb open "{" then
        match JSON_read_members 4 rest with
        | Some members =>
            Some {| title := lookup_attribute members "title";
                    description := lookup_attribute members "description";
                    image := lookup_attribute members "image";
                    favicon := lookup_attribute members "favicon" |}
        | None =>
            if String.eqb rest "}" then
              Some {| title := None; description := None;
                      image := None; favicon := None |}
            else None
        end
      else None
  | EmptyString => None
  end.

(** The fields of a value that are present, under their names. *)
Definition present_fields (d : UnfurledData) : list (string * string) :=
  omap (fun kv : string * option string =>
          match snd kv with
          | Some v => Some (fst kv, v)
          | None => None
          end)
    [("title", title d); ("description", description d);
     ("image", image d); ("favicon", favicon d)].

Definition JSON_render (members : list (string * string)) : string :=
  String.concat ","
    (map (fun kv : string * string =>
            String.append (JSON_quote (fst kv))
              (String.append ":" (JSON_quote (snd kv))))
       members).

(** * Properties *)

(** ** [startsWith] and the parameter check *)

Lemma startsWith_get (needle s : string) :
  startsWith s needle = true ->
  forall n c, String.get n needle = Some c -> String.get n s = Some c.
Proof.
  unfold startsWith. revert s.
  induction needle as [|a needle IH]; intros s Hp n c Hn.
  - destruct n; discriminate.
  - destruct s as [|b s]; [discriminate|].
    simpl in Hp. destruct (ascii_dec a b) as [->|]; [|discriminate].
    destruct n as [|n]; simpl in *; [assumption|].
    eapply IH; eassumption.
Qed.

Lemma http_and_https_exclusive (s : string) :
  startsWith s "http://" && startsWith s "https://" = false.
Proof.
  destruct (startsWith s "http://") eqn:H1; [|reflexivity].
  destruct (startsWith s "https://") eqn:H2; [|reflexivity].
  pose proof (startsWith_get _ _ H1 4 ":"%char eq_refl) as G1.
  pose proof (startsWith_get _ _ H2 4 "s"%char eq_refl) as G2.
  congruence.
Qed.

Lemma rejects_param_always (url : JSValue) : rejects_param url = true.
Proof.
  destruct url as [| | b | n | s | o]; try reflexivity.
  unfold rejects_param. simpl.
  pose proof (http_and_https_exclusive s) as H.
  destruct (startsWith s "http://"), (startsWith s "https://");
    simpl in *; congruence.
Qed.

(** C1.  Whatever value is passed to [unfurl] - a string that starts
    with [http://] or with [https://] included - the condition of the
    first [if] holds, so [unfurl] resolves to the failure result with
    error [bad-param], calls no collaborator, and never yields a success
    result. *)
Theorem unfurl_always_bad_param
    (fetch : string -> Fetched) (URL_href : string -> string -> option string)
    (url : JSValue) :
  rejects_param url = true
  /\ unfurl fetch URL_href url
     = {| calls := []; settled := Fulfilled (BadResult bad_param) |}
  /\ (forall r, settled (unfurl fetch URL_href url) = Fulfilled r ->
                ok r = false /\ value r = None).
Proof.
  pose proof (rejects_param_always url) as Hrej.
  assert (unfurl fetch URL_href url = ret (BadResult bad_param)) as Hu.
  { unfold unfurl. rewrite Hrej. reflexivity. }
  split; [exact Hrej|]. split; [exact Hu|].
  intros r Hr. rewrite Hu in Hr. simpl in Hr.
  injection Hr as <-. split; reflexivity.
Qed.

Example unfurl_https_example :
  unfurl (serve []) sample_URL_href (JSString "https://example.com/")
  = {| calls := []; settled := Fulfilled (BadResult bad_param) |}.
Proof. reflexivity. Qed.

Example unfurl_http_example :
  unfurl (serve []) sample_URL_href (JSString "http://example.com/")
  = {| calls := []; settled := Fulfilled (BadResult bad_param) |}.
Proof. reflexivity. Qed.

(** C3.  For the empty string and for every value that is not a string,
    [unfurl] resolves to the failure result with error [bad-param] and
    makes no call at all: [fetch] is never invoked. *)
Theorem unfurl_empty_or_non_string
    (fetch : string -> Fetched) (URL_href : string -> string -> option string)
    (url : JSValue) :
  url = JSString EmptyString \/ is_string url = false ->
  unfurl fetch URL_href url
  = {| calls := []; settled := Fulfilled (BadResult bad_param) |}.
Proof.
  intros [-> | Hty].
  - reflexivity.
  - destruct url; try reflexivity. discriminate Hty.
Qed.

Lemma unfurl_empty_or_non_string_witness :
  unfurl (serve []) sample_URL_href (JSString EmptyString)
  = {| calls := []; settled := Fulfilled (BadResult bad_param) |}
  /\ unfurl (serve []) sample_URL_href (JSNumber 42)
     = {| calls := []; settled := Fulfilled (BadResult bad_param) |}.
Proof.
  split.
  - apply (unfurl_empty_or_non_string (serve []) sample_URL_href
             (JSString EmptyString)).
    left. reflexivity.
  - apply (unfurl_empty_or_non_string (serve []) sample_URL_href
             (JSNumber 42)).
    right. reflexivity.
Defined.

(** ** The handlers *)

Lemma startsWith_nonempty (s needle : string) :
  startsWith s needle = true -> needle <> EmptyString -> s <> EmptyString.
Proof.
  intros Hp Hn ->. destruct needle; [congruence | discriminate Hp].
Qed.

(** The JavaScript test [v && v.startsWith(needle)] agrees with "present
    and starts with [needle]" as soon as [needle] is not empty. *)
Lemma guarded_present_with_prefix (v : option string) (needle : string) :
  needle <> EmptyString ->
  guarded v (fun s => startsWith s needle) = present_with_prefix v needle.
Proof.
  intros Hn. destruct v as [s|]; [|reflexivity].
  unfold guarded, present_with_prefix.
  destruct (startsWith s needle) eqn:Hp.
  - pose proof (startsWith_nonempty _ _ Hp Hn) as Hs.
    destruct s; [congruence | reflexivity].
  - rewrite andb_false_r. reflexivity.
Qed.

Lemma element_refines_rule (this : MetaExtractor.t) (el : Element) :
  MetaExtractor.element this el
  = apply_meta_rule this (meta_rule el) (getAttribute el "content").
Proof.
  unfold MetaExtractor.element, meta_rule.
  rewrite !guarded_present_with_prefix by discriminate.
  destruct (present_with_prefix (getAttribute el "property") "og:");
    [reflexivity|].
  destruct (present_with_prefix (getAttribute el "name") "twitter:");
    [reflexivity|].
  destruct (decide (getAttribute el "name" = Some "description"));
    reflexivity.
Qed.

Lemma transform_app (h : Handlers) (pre post : list TagEvent) :
  transform h (pre ++ post) = transform (transform h pre) post.
Proof. unfold transform. apply fold_left_app. Qed.

Lemma transform_cons (h : Handlers) (ev : TagEvent) (rest : list TagEvent) :
  transform h (ev :: rest) = transform (dispatch h ev) rest.
Proof. reflexivity. Qed.

Lemma stored_apply_same (this : MetaExtractor.t) (rule : MetaRule)
    (content : option string) :
  rule <> IgnoreElement ->
  stored rule (apply_meta_rule this rule content) = Some content.
Proof.
  intros Hrule. destruct rule; simpl; try congruence;
    apply lookup_insert_eq.
Qed.

Lemma stored_apply_other (this : MetaExtractor.t) (rule other : MetaRule)
    (content : option string) :
  other <> rule ->
  stored rule (apply_meta_rule this other content) = stored rule this.
Proof.
  intros Hne. destruct rule, other; simpl; try reflexivity; try congruence;
    apply lookup_insert_ne; congruence.
Qed.

(** An event that is not a [meta] element under [rule] leaves the place
    [rule] writes to as it was. *)
Lemma dispatch_stored_other (h : Handlers) (ev : TagEvent) (rule : MetaRule) :
  ~ stores_under rule ev ->
  stored rule (meta_ (dispatch h ev)) = stored rule (meta_ h).
Proof.
  intros Hnot. destruct ev as [el | tag chunk]; simpl.
  - destruct (String.eqb_spec (tagName el) "meta") as [Htag | Htag].
    + simpl. rewrite element_refines_rule. apply stored_apply_other.
      intros Hsame. apply Hnot. by split.
    + destruct (String.eqb (tagName el) "link"); reflexivity.
  - destruct (String.eqb tag "title"); reflexivity.
Qed.

Lemma transform_stored_other (events : list TagEvent) (rule : MetaRule) :
  Forall (fun ev => ~ stores_under rule ev) events ->
  forall h, stored rule (meta_ (transform h events)) = stored rule (meta_ h).
Proof.
  induction 1 as [|ev rest Hev _ IH]; intros h; [reflexivity|].
  rewrite transform_cons, IH. by apply dispatch_stored_other.
Qed.

(** Last write wins, in document order: whatever came before, the last
    [meta] element under a storing rule decides what is held there at
    the end of the pass. *)
Lemma transform_stored_last (pre post : list TagEvent) (el : Element)
    (rule : MetaRule) (h : Handlers) :
  tagName el = "meta" ->
  meta_rule el = rule ->
  rule <> IgnoreElement ->
  Forall (fun ev => ~ stores_under rule ev) post ->
  stored rule (meta_ (transform h (pre ++ ElementStart el :: post)))
  = Some (getAttribute el "content").
Proof.
  intros Htag Hrule Hstore Hpost.
  rewrite transform_app, transform_cons, transform_stored_other
    by exact Hpost.
  simpl. rewrite Htag. simpl. rewrite element_refines_rule, Hrule.
  by apply stored_apply_same.
Qed.

(** C5.  [MetaExtractor.element] applies to each [meta] element exactly
    the one rule the specification's ordered list picks for it - store
    under an [og:] property, else store under a [twitter:] name, else
    store the generic description, else ignore.  Of the [meta] elements
    of a document that store in the same place, the last one decides
    what is held there: after [og:title] [A] then [og:title] [B],
    [og:title] is [B]. *)
Theorem meta_element_classification
    (this : MetaExtractor.t) (el : Element) :
  MetaExtractor.element this el
  = apply_meta_rule this (meta_rule el) (getAttribute el "content")
  /\ (forall (h : Handlers) (pre post : list TagEvent) (later : Element),
        tagName later = "meta" ->
        meta_rule later <> IgnoreElement ->
        Forall (fun ev => ~ stores_under (meta_rule later) ev) post ->
        stored (meta_rule later)
          (meta_ (transform h (pre ++ ElementStart later :: post)))
        = Some (getAttribute later "content"))
  /\ (forall h,
        prop (MetaExtractor.og (meta_ (transform h
               [meta_element [("property", "og:title"); ("content", "A")];
                meta_element [("property", "og:title"); ("content", "B")]])))
             "og:title"
        = Some "B").
Proof.
  split; [apply element_refines_rule|]. split.
  - intros h pre post later Htag Hrule Hpost.
    by apply transform_stored_last.
  - intros h. cbn. unfold prop. by rewrite lookup_insert_eq.
Qed.

Lemma meta_element_classification_witness :
  let earlier := meta_element [("property", "og:title"); ("content", "A")] in
  let later := {| tagName := "meta";
                  attributes := [("content", "B");
                                 ("property", "og:title");
                                 ("name", "description")] |} in
  let between := meta_element [("name", "twitter:title"); ("content", "T")] in
  let after := meta_element [("name", "description"); ("content", "D")] in
  MetaExtractor.og
    (meta_ (transform new_handlers
              [earlier; between; ElementStart later; Text "title" "t"; after]))
  !! "og:title"
  = Some (Some "B").
Proof.
  intros earlier later between after.
  destruct (meta_element_classification MetaExtractor.new later)
    as (_ & Hlast & _).
  refine (Hlast new_handlers [earlier; between] [Text "title" "t"; after]
            later eq_refl _ _).
  - discriminate.
  - constructor; [intros []|].
    constructor; [intros [_ Hrule]; discriminate Hrule|].
    constructor.
Defined.

(** C8.  [IconExtractor.element] stores the [href] as [icon] exactly
    when [rel] is the string [icon], and as [appleIcon] exactly when
    [rel] is the string [apple-touch-icon]; any other [rel], such as
    [shortcut icon], leaves both fields as they were. *)
Theorem icon_element_exact_rel (this : IconExtractor.t) (el : Element) :
  (getAttribute el "rel" = Some "icon" ->
   IconExtractor.element this el
   = {| IconExtractor.appleIcon := IconExtractor.appleIcon this;
        IconExtractor.icon := getAttribute el "href" |})
  /\ (getAttribute el "rel" = Some "apple-touch-icon" ->
      IconExtractor.element this el
      = {| IconExtractor.appleIcon := getAttribute el "href";
           IconExtractor.icon := IconExtractor.icon this |})
  /\ (getAttribute el "rel" <> Some "icon" ->
      IconExtractor.icon (IconExtractor.element this el)
      = IconExtractor.icon this)
  /\ (getAttribute el "rel" <> Some "apple-touch-icon" ->
      IconExtractor.appleIcon (IconExtractor.element this el)
      = IconExtractor.appleIcon this)
  /\ (getAttribute el "rel" <> Some "icon" ->
      getAttribute el "rel" <> Some "apple-touch-icon" ->
      IconExtractor.element this el = this)
  /\ (getAttribute el "rel" = Some "shortcut icon" ->
      IconExtractor.element this el = this).
Proof.
  unfold IconExtractor.element.
  repeat split.
  - intros Hrel. rewrite decide_True by exact Hrel. reflexivity.
  - intros Hrel. rewrite decide_False by (rewrite Hrel; discriminate).
    rewrite decide_True by exact Hrel. reflexivity.
  - intros Hrel. rewrite decide_False by exact Hrel.
    destruct (decide _); reflexivity.
  - intros Hrel. destruct (decide (_ = Some "icon")); [reflexivity|].
    rewrite decide_False by exact Hrel. reflexivity.
  - intros H1 H2. rewrite !decide_False by assumption. reflexivity.
  - intros Hrel. rewrite !decide_False by (rewrite Hrel; discriminate).
    reflexivity.
Qed.

Lemma icon_element_exact_rel_witness :
  let this := {| IconExtractor.appleIcon := Some "/apple.png";
                 IconExtractor.icon := Some "/favicon.ico" |} in
  let shortcut := {| tagName := "link";
                     attributes := [("rel", "shortcut icon");
                                    ("href", "/other.ico")] |} in
  let plain := {| tagName := "link";
                  attributes := [("rel", "icon"); ("href", "/new.ico")] |} in
  IconExtractor.element this shortcut = this
  /\ IconExtractor.element this plain
     = {| IconExtractor.appleIcon := Some "/apple.png";
          IconExtractor.icon := Some "/new.ico" |}.
Proof.
  intros this shortcut plain. split.
  - destruct (icon_element_exact_rel this shortcut)
      as (_ & _ & _ & _ & _ & Hshortcut).
    apply Hshortcut. reflexivity.
  - destruct (icon_element_exact_rel this plain) as (Hicon & _).
    apply Hicon. reflexivity.
Defined.

(** ** One pass over the events *)

Lemma append_cons (x : ascii) (a b : string) :
  String.append (String x a) b = String x (String.append a b).
Proof. reflexivity. Qed.

Lemma append_empty_l (a : string) : String.append EmptyString a = a.
Proof. reflexivity. Qed.

Lemma append_assoc (a b c : string) :
  String.append (String.append a b) c = String.append a (String.append b c).
Proof.
  induction a as [|x a IH]; [reflexivity|].
  by rewrite !append_cons, IH.
Qed.

Lemma append_empty_r (a : string) : String.append a EmptyString = a.
Proof.
  induction a as [|x a IH]; [reflexivity|].
  by rewrite append_cons, IH.
Qed.

(** [title$.string] after the pass is what it was before followed by
    the title's text chunks in order. *)
Lemma transform_title (events : list TagEvent) :
  forall h,
    TextExtractor.string (title_ (transform h events))
    = String.append (TextExtractor.string (title_ h)) (title_text events).
Proof.
  induction events as [|ev rest IH]; intros h.
  - simpl. by rewrite append_empty_r.
  - rewrite transform_cons, IH. destruct ev as [el | tag chunk]; simpl.
    + destruct (String.eqb (tagName el) "meta"); [reflexivity|].
      destruct (String.eqb (tagName el) "link"); reflexivity.
    + destruct (String.eqb tag "title"); [|reflexivity].
      simpl. by rewrite append_assoc.
Qed.

Lemma title_text_empty (events : list TagEvent) :
  (forall chunk, In (Text "title" chunk) events -> chunk = EmptyString) ->
  title_text events = EmptyString.
Proof.
  induction events as [|ev rest IH]; intros Hall; [reflexivity|].
  destruct ev as [el | tag chunk]; simpl.
  - apply IH. intros chunk Hin. apply Hall. by right.
  - destruct (String.eqb_spec tag "title") as [-> | Hne].
    + rewrite (Hall chunk) by (by left). rewrite append_empty_l.
      apply IH. intros c Hin. apply Hall. by right.
    + apply IH. intros c Hin. apply Hall. by right.
Qed.

(** ** The selection of the four fields *)

Lemma select_fulfilled (URL_href : string -> string -> option string)
    (url : string) (h : Handlers) (r : Result) :
  select URL_href url h = Fulfilled r ->
  exists img fav,
    absolute URL_href (image_candidate h) url = Some img
    /\ absolute URL_href (favicon_candidate h) url = Some fav
    /\ r = GoodResult {| title := title_candidate h;
                         description := description_candidate h;
                         image := img;
                         favicon := fav |}.
Proof.
  unfold select.
  destruct (absolute URL_href (image_candidate h) url) as [img|];
    [|discriminate].
  destruct (absolute URL_href (favicon_candidate h) url) as [fav|];
    [|discriminate].
  intros [= <-]. by exists img, fav.
Qed.

Lemma unfurl_checked_fulfilled
    (fetch : string -> Fetched) (URL_href : string -> string -> option string)
    (url : string) (h : Handlers) (r : Result) :
  try_transform fetch url = Some h ->
  settled (unfurl_checked fetch URL_href url) = Fulfilled r ->
  select URL_href url h = Fulfilled r.
Proof. unfold unfurl_checked. simpl. by intros ->. Qed.

Lemma try_transform_streamed (fetch : string -> Fetched) (url : string)
    (events : list TagEvent) :
  fetch url = Streamed events true ->
  try_transform fetch url = Some (transform new_handlers events).
Proof. unfold try_transform. by intros ->. Qed.

(** ** The title *)

(** The claim that a document without title text resolves to an absent
    title fails on the empty document: no [og:title], no
    [twitter:title], no text event, and the title is the empty string. *)
Lemma untitled_document_title_not_absent :
  prop (MetaExtractor.og (meta_ (transform new_handlers []))) "og:title"
  = None
  /\ prop (MetaExtractor.twitter (meta_ (transform new_handlers [])))
          "twitter:title"
     = None
  /\ title_text [] = EmptyString
  /\ settled (unfurl_checked (serve []) sample_URL_href "https://example.com/")
     = Fulfilled (GoodResult {| title := Some EmptyString;
                                description := None;
                                image := None;
                                favicon := None |})
  /\ title_candidate (transform new_handlers []) <> None.
Proof. repeat split; discriminate. Qed.

(** C2, as the code has it.  When the [text] handler of the title is
    never called, or only ever with empty text, and neither [og:title]
    nor [twitter:title] holds a value, the resolved title is the empty
    string - a present value, not [undefined]: [title$.string] starts as
    the empty string and [??] only skips [null] and [undefined]. *)
Theorem title_empty_without_text
    (fetch : string -> Fetched) (URL_href : string -> string -> option string)
    (url : string) (events : list TagEvent) :
  fetch url = Streamed events true ->
  (forall chunk, In (Text "title" chunk) events -> chunk = EmptyString) ->
  prop (MetaExtractor.og (meta_ (transform new_handlers events))) "og:title"
  = None ->
  prop (MetaExtractor.twitter (meta_ (transform new_handlers events)))
       "twitter:title"
  = None ->
  TextExtractor.string (title_ (transform new_handlers events)) = EmptyString
  /\ title_candidate (transform new_handlers events) = Some EmptyString
  /\ (forall r,
        settled (unfurl_checked fetch URL_href url) = Fulfilled r ->
        exists d, value r = Some d /\ title d = Some EmptyString).
Proof.
  intros Hfetch Hchunks Hog Htw.
  assert (TextExtractor.string (title_ (transform new_handlers events))
          = EmptyString) as Hstr.
  { rewrite transform_title. simpl. by apply title_text_empty. }
  assert (title_candidate (transform new_handlers events)
          = Some EmptyString) as Hcand.
  { unfold title_candidate. rewrite Hog, Htw, Hstr. reflexivity. }
  split; [exact Hstr|]. split; [exact Hcand|].
  intros r Hr.
  apply (unfurl_checked_fulfilled _ _ _ _ _
           (try_transform_streamed _ _ _ Hfetch)) in Hr.
  apply select_fulfilled in Hr as (img & fav & _ & _ & ->).
  eexists. split; [reflexivity|]. exact Hcand.
Qed.

Lemma title_empty_without_text_witness :
  let events :=
    [meta_element [("name", "description"); ("content", "A page")];
     Text "title" EmptyString;
     Text "h1" "Heading"] in
  settled (unfurl_checked (serve events) sample_URL_href "https://example.com/")
  = Fulfilled (GoodResult {| title := Some EmptyString;
                             description := Some "A page";
                             image := None;
                             favicon := None |})
  /\ title_candidate (transform new_handlers events) = Some EmptyString.
Proof.
  intros events.
  split; [reflexivity|].
  refine (proj1 (proj2 (title_empty_without_text (serve events) sample_URL_href
                          "https://example.com/" events eq_refl _ _ _))).
  - intros chunk [Hin | [Hin | [Hin | []]]]; try discriminate Hin.
    by injection Hin as <-.
  - reflexivity.
  - reflexivity.
Defined.

Lemma first_present_title (h : Handlers) :
  title_candidate h
  = first_present
      [prop (MetaExtractor.og (meta_ h)) "og:title";
       prop (MetaExtractor.twitter (meta_ h)) "twitter:title";
       Some (TextExtractor.string (title_ h))].
Proof.
  unfold title_candidate, nullish. simpl.
  destruct (prop (MetaExtractor.og (meta_ h)) "og:title"); [reflexivity|].
  destruct (prop (MetaExtractor.twitter (meta_ h)) "twitter:title");
    reflexivity.
Qed.

(** C4.  Once the pass is over, the resolved title is the value stored
    for [og:title] if there is one, otherwise the value stored for
    [twitter:title] if there is one, otherwise the accumulated title
    text; there is no source after that.  In particular, in a document
    whose last [og:title] meta carries the content [v], the title is
    [v] whatever the text of its [title] element. *)
Theorem title_priority
    (fetch : string -> Fetched) (URL_href : string -> string -> option string)
    (url : string) (events : list TagEvent) :
  fetch url = Streamed events true ->
  let h := transform new_handlers events in
  title_candidate h
  = first_present
      [prop (MetaExtractor.og (meta_ h)) "og:title";
       prop (MetaExtractor.twitter (meta_ h)) "twitter:title";
       Some (TextExtractor.string (title_ h))]
  /\ (forall r,
        settled (unfurl_checked fetch URL_href url) = Fulfilled r ->
        exists d, value r = Some d /\ title d = title_candidate h)
  /\ (forall (pre : list TagEvent) (el : Element) (post : list TagEvent)
             (v : string),
        events = (pre ++ ElementStart el :: post)%list ->
        tagName el = "meta" ->
        getAttribute el "property" = Some "og:title" ->
        getAttribute el "content" = Some v ->
        Forall (fun ev => ~ stores_under (StoreOpenGraph "og:title") ev) post ->
        title_candidate h = Some v).
Proof.
  intros Hfetch h. split; [apply first_present_title|]. split.
  - intros r Hr.
    apply (unfurl_checked_fulfilled _ _ _ _ _
             (try_transform_streamed _ _ _ Hfetch)) in Hr.
    apply select_fulfilled in Hr as (img & fav & _ & _ & ->).
    eexists. split; reflexivity.
  - intros pre el post v -> Htag Hp Hc Hpost.
    assert (meta_rule el = StoreOpenGraph "og:title") as Hrule.
    { unfold meta_rule. by rewrite Hp. }
    pose proof (transform_stored_last pre post el _ new_handlers
                  Htag Hrule ltac:(discriminate) Hpost) as Hlast.
    unfold title_candidate, prop. subst h. simpl in Hlast.
    rewrite Hlast, Hc. reflexivity.
Qed.

Lemma title_priority_witness :
  let og_title := {| tagName := "meta";
                     attributes := [("property", "og:title");
                                    ("content", "Card title")] |} in
  let events :=
    [Text "title" "Tag "; ElementStart og_title; Text "title" "text";
     meta_element [("name", "twitter:title"); ("content", "Tweet title")]] in
  title_candidate (transform new_handlers events) = Some "Card title"
  /\ TextExtractor.string (title_ (transform new_handlers events))
     = "Tag text".
Proof.
  intros og_title events. split; [|reflexivity].
  refine (proj2 (proj2 (title_priority (serve events) sample_URL_href
                          "https://example.com/" events eq_refl))
            [Text "title" "Tag "] og_title _ "Card title"
            eq_refl eq_refl eq_refl eq_refl _).
  constructor; [intros []|].
  constructor; [intros [_ Hp]; discriminate Hp|].
  constructor.
Defined.

(** A [meta] that names [og:title] but carries no [content] attribute
    stores [null]; [??] passes over it and the title falls to the next
    source. *)
Example og_title_without_content :
  title_candidate
    (transform new_handlers
       [meta_element [("property", "og:title")]; Text "title" "Tag text"])
  = Some "Tag text".
Proof. reflexivity. Qed.

(** Text chunks of one title arrive split and are joined in order. *)
Example title_split_chunks :
  title_candidate
    (transform new_handlers [Text "title" "Hel"; Text "title" "lo"])
  = Some "Hello".
Proof. reflexivity. Qed.

(** ** Image and favicon *)

Lemma first_present_image (h : Handlers) :
  image_candidate h
  = first_present
      [prop (MetaExtractor.og (meta_ h)) "og:image:secure_url";
       prop (MetaExtractor.og (meta_ h)) "og:image";
       prop (MetaExtractor.twitter (meta_ h)) "twitter:image"].
Proof.
  unfold image_candidate, nullish. simpl.
  repeat (match goal with |- context [prop ?m ?k] => destruct (prop m k) end;
          try reflexivity).
Qed.

Lemma first_present_favicon (h : Handlers) :
  favicon_candidate h
  = first_present
      [IconExtractor.appleIcon (icon_ h); IconExtractor.icon (icon_ h)].
Proof.
  unfold favicon_candidate, nullish. simpl.
  destruct (IconExtractor.appleIcon (icon_ h)); [reflexivity|].
  destruct (IconExtractor.icon (icon_ h)); reflexivity.
Qed.

(** C6.  The image candidate is [og:image:secure_url] if it holds a
    value, else [og:image], else [twitter:image], else absent; the
    favicon candidate is the apple-touch-icon href if there is one, else
    the standard icon href, else absent; the returned [image] and
    [favicon] are made from these two candidates. *)
Theorem image_favicon_priority (h : Handlers) :
  image_candidate h
  = first_present
      [prop (MetaExtractor.og (meta_ h)) "og:image:secure_url";
       prop (MetaExtractor.og (meta_ h)) "og:image";
       prop (MetaExtractor.twitter (meta_ h)) "twitter:image"]
  /\ favicon_candidate h
     = first_present
         [IconExtractor.appleIcon (icon_ h); IconExtractor.icon (icon_ h)]
  /\ (forall URL_href url r,
        select URL_href url h = Fulfilled r ->
        exists d,
          value r = Some d
          /\ absolute URL_href (image_candidate h) url = Some (image d)
          /\ absolute URL_href (favicon_candidate h) url = Some (favicon d)).
Proof.
  split; [apply first_present_image|].
  split; [apply first_present_favicon|].
  intros URL_href url r Hr.
  apply select_fulfilled in Hr as (img & fav & Himg & Hfav & ->).
  eexists. split; [reflexivity|]. split; assumption.
Qed.

Lemma image_favicon_priority_witness :
  let h :=
    transform new_handlers
      [meta_element [("name", "twitter:image"); ("content", "https://t/i.png")];
       meta_element [("property", "og:image"); ("content", "https://o/i.png")];
       meta_element [("property", "og:image:secure_url")];
       link_element [("rel", "icon"); ("href", "https://s/favicon.ico")];
       link_element [("rel", "apple-touch-icon"); ("href", "https://s/a.png")]]
  in
  image_candidate h = Some "https://o/i.png"
  /\ favicon_candidate h = Some "https://s/a.png".
Proof.
  intros h.
  destruct (image_favicon_priority h) as (Himg & Hfav & _).
  split; [rewrite Himg | rewrite Hfav]; reflexivity.
Defined.

Lemma needs_base_true (c : string) :
  c <> EmptyString -> startsWith c "http" = false ->
  needs_base (Some c) = true.
Proof.
  intros Hc Hp. unfold needs_base. rewrite Hp.
  destruct c; [congruence | reflexivity].
Qed.

Lemma needs_base_http (c : string) :
  startsWith c "http" = true -> needs_base (Some c) = false.
Proof. intros Hp. unfold needs_base. rewrite Hp. apply andb_false_r. Qed.

Lemma absolute_resolved (URL_href : string -> string -> option string)
    (c url : string) (x : option string) :
  c <> EmptyString -> startsWith c "http" = false ->
  absolute URL_href (Some c) url = Some x ->
  exists href, URL_href c url = Some href /\ x = Some href.
Proof.
  intros Hc Hp. unfold absolute. rewrite (needs_base_true c Hc Hp).
  destruct (URL_href c url) as [href|]; [|discriminate].
  intros [= <-]. by exists href.
Qed.

Lemma absolute_unchanged (URL_href : string -> string -> option string)
    (c url : string) :
  startsWith c "http" = true ->
  absolute URL_href (Some c) url = Some (Some c).
Proof. intros Hp. unfold absolute. by rewrite (needs_base_http c Hp). Qed.

Lemma absolute_returns (URL_href : string -> string -> option string)
    (x : option string) (url : string) :
  (forall c, x = Some c -> c <> EmptyString -> startsWith c "http" = false ->
             is_Some (URL_href c url)) ->
  is_Some (absolute URL_href x url).
Proof.
  intros Hok. unfold absolute.
  destruct (needs_base x) eqn:Hn; [|by eexists].
  destruct x as [c|]; [|by eexists].
  unfold needs_base in Hn. apply andb_prop in Hn as [Ht Hp].
  apply negb_true_iff in Hp.
  destruct (Hok c eq_refl) as [href Hhref]; [by destruct c | exact Hp |].
  rewrite Hhref. by eexists.
Qed.

(** C7.  Only [image] and [favicon] go through [new URL]: a candidate
    that is a non-empty string not starting with [http] is replaced by
    its resolution against the request URL, and the call returns
    whenever those resolutions do; a candidate that starts with [http]
    is returned as it is; [title] and [description] are returned as
    selected, without any resolution. *)
Theorem url_normalization
    (URL_href : string -> string -> option string)
    (url : string) (h : Handlers) :
  ((forall c, image_candidate h = Some c -> c <> EmptyString ->
              startsWith c "http" = false -> is_Some (URL_href c url)) ->
   (forall c, favicon_candidate h = Some c -> c <> EmptyString ->
              startsWith c "http" = false -> is_Some (URL_href c url)) ->
   exists r, select URL_href url h = Fulfilled r)
  /\ (forall r,
        select URL_href url h = Fulfilled r ->
        exists d,
          r = GoodResult d
          /\ (forall c, image_candidate h = Some c -> c <> EmptyString ->
                startsWith c "http" = false ->
                exists href, URL_href c url = Some href
                             /\ image d = Some href)
          /\ (forall c, image_candidate h = Some c ->
                startsWith c "http" = true -> image d = Some c)
          /\ (forall c, favicon_candidate h = Some c -> c <> EmptyString ->
                startsWith c "http" = false ->
                exists href, URL_href c url = Some href
                             /\ favicon d = Some href)
          /\ (forall c, favicon_candidate h = Some c ->
                startsWith c "http" = true -> favicon d = Some c)
          /\ title d = title_candidate h
          /\ description d = description_candidate h).
Proof.
  split.
  - intros Himg Hfav. unfold select.
    destruct (absolute_returns URL_href _ url Himg) as [img ->].
    destruct (absolute_returns URL_href _ url Hfav) as [fav ->].
    by eexists.
  - intros r Hr.
    apply select_fulfilled in Hr as (img & fav & Himg & Hfav & ->).
    eexists. split; [reflexivity|]. simpl.
    split; [|split; [|split; [|split; [|split; reflexivity]]]].
    + intros c Hc Hne Hp. rewrite Hc in Himg.
      by apply (absolute_resolved URL_href c url).
    + intros c Hc Hp. rewrite Hc, (absolute_unchanged _ _ _ Hp) in Himg.
      by injection Himg as <-.
    + intros c Hc Hne Hp. rewrite Hc in Hfav.
      by apply (absolute_resolved URL_href c url).
    + intros c Hc Hp. rewrite Hc, (absolute_unchanged _ _ _ Hp) in Hfav.
      by injection Hfav as <-.
Qed.

Lemma url_normalization_witness :
  let h :=
    transform new_handlers
      [meta_element [("property", "og:title"); ("content", "/not-a-url")];
       meta_element [("property", "og:image");
                     ("content", "https://cdn.example.com/icon.png")];
       link_element [("rel", "icon"); ("href", "/favicon.ico")]] in
  exists d,
    select sample_URL_href "https://example.com/page" h
    = Fulfilled (GoodResult d)
    /\ favicon d = Some "https://example.com/favicon.ico"
    /\ image d = Some "https://cdn.example.com/icon.png"
    /\ title d = Some "/not-a-url".
Proof.
  intros h.
  destruct (url_normalization sample_URL_href "https://example.com/page" h)
    as [_ Hcases].
  destruct (Hcases
              (GoodResult
                 {| title := Some "/not-a-url";
                    description := None;
                    image := Some "https://cdn.example.com/icon.png";
                    favicon := Some "https://example.com/favicon.ico" |})
              eq_refl)
    as (d & Hd & _ & Himg & Hfav & _ & Ht & _).
  exists d. split; [rewrite <- Hd; reflexivity|].
  split; [|split].
  - destruct (Hfav "/favicon.ico" eq_refl) as (href & Hhref & ->);
      [discriminate | reflexivity |].
    rewrite <- Hhref. reflexivity.
  - apply Himg; reflexivity.
  - rewrite Ht. reflexivity.
Defined.

(** ** Failures *)






(** ** The request handler *)

Lemma truthy_nonempty (s : string) :
  s <> EmptyString -> truthy (Some s) = true.
Proof. destruct s; [congruence | reflexivity]. Qed.

(** The object serialized carries a member for each field that is
    present, in the order [title], [description], [image], [favicon],
    and nothing else. *)
Lemma JSON_stringify_members (d : UnfurledData) :
  JSON_stringify d
  = String.append "{"
      (String.append
         (String.concat ","
            (omap (fun kv : string * option string =>
                     match snd kv with
                     | Some s =>
                         Some (String.append (JSON_quote (fst kv))
                                 (String.append ":" (JSON_quote s)))
                     | None => None
                     end)
               [("title", title d); ("description", description d);
                ("image", image d); ("favicon", favicon d)]))
         "}").
Proof.
  unfold JSON_stringify, JSON_member.
  destruct (title d), (description d), (image d), (favicon d); reflexivity.
Qed.

(** C10.  The handler answers 400 with the text
    [Missing URL query parameter.] and no call to [unfurl] when the
    [url] parameter is absent; otherwise it calls [unfurl] once and
    answers 400 to [bad-param], 422 to [failed-fetch], and to a success
    200 with the JSON serialization of the four fields of the value. *)
Theorem handler_status_mapping
    (unfurl_impl : JSValue -> Run Result) (request : Request) :
  (searchParams_url request = None ->
   handleUnfurlRequest_with unfurl_impl request
   = {| calls := [];
        settled := Fulfilled {| body := "Missing URL query parameter.";
                                status := 400;
                                content_type := None |} |})
  /\ (forall s result,
        searchParams_url request = Some s -> s <> EmptyString ->
        settled (unfurl_impl (JSString s)) = Fulfilled result ->
        exists response,
          handleUnfurlRequest_with unfurl_impl request
          = {| calls := CallUnfurl (JSString s)
                        :: calls (unfurl_impl (JSString s));
               settled := Fulfilled response |}
          /\ (ok result = false -> error result = Some bad_param ->
              status response = 400
              /\ body response = "Bad URL query parameter."
              /\ content_type response = None)
          /\ (ok result = false -> error result = Some failed_fetch ->
              status response = 422
              /\ body response = "Failed to fetch URL."
              /\ content_type response = None)
          /\ (forall d, ok result = true -> value result = Some d ->
              status response = 200
              /\ body response = JSON_stringify d
              /\ content_type response = Some "application/json")).
Proof.
  unfold handleUnfurlRequest_with. split.
  - intros ->. reflexivity.
  - intros s result -> Hs Hres.
    rewrite (truthy_nonempty s Hs), Hres. simpl.
    eexists. split; [reflexivity|].
    unfold respond. split; [|split].
    + intros -> ->. rewrite decide_True by reflexivity. by repeat split.
    + intros -> ->. rewrite decide_False by discriminate. by repeat split.
    + intros d -> ->. by repeat split.
Qed.

Lemma handler_status_mapping_witness :
  let d := {| title := Some "Example"; description := None;
              image := None; favicon := Some "https://example.com/i.png" |} in
  handleUnfurlRequest_with (fun _ => ret (GoodResult d)) {| searchParams_url := None |}
  = ret {| body := "Missing URL query parameter."; status := 400;
           content_type := None |}
  /\ (exists response,
        settled (handleUnfurlRequest_with (fun _ => ret (GoodResult d))
                   {| searchParams_url := Some "https://example.com/" |})
        = Fulfilled response
        /\ status response = 200
        /\ body response = JSON_stringify d)
  /\ (exists response,
        settled (handleUnfurlRequest_with
                   (fun _ => ret (BadResult failed_fetch))
                   {| searchParams_url := Some "https://example.com/" |})
        = Fulfilled response
        /\ status response = 422).
Proof.
  intros d. split; [|split].
  - apply (handler_status_mapping (fun _ => ret (GoodResult d))
             {| searchParams_url := None |}).
    reflexivity.
  - destruct (handler_status_mapping (fun _ => ret (GoodResult d))
                {| searchParams_url := Some "https://example.com/" |})
      as [_ Hcalled].
    destruct (Hcalled "https://example.com/" (GoodResult d) eq_refl
                ltac:(discriminate) eq_refl)
      as (response & Hrun & _ & _ & Hgood).
    exists response. split; [by rewrite Hrun|].
    destruct (Hgood d eq_refl eq_refl) as (Hstatus & Hbody & _).
    by split.
  - destruct (handler_status_mapping (fun _ => ret (BadResult failed_fetch))
                {| searchParams_url := Some "https://example.com/" |})
      as [_ Hcalled].
    destruct (Hcalled "https://example.com/" (BadResult failed_fetch) eq_refl
                ltac:(discriminate) eq_refl)
      as (response & Hrun & _ & Hfailed & _).
    exists response. split; [by rewrite Hrun|].
    by destruct (Hfailed eq_refl eq_refl) as (Hstatus & _).
Defined.

(** An empty [url] parameter is treated like a missing one. *)
Lemma handler_empty_param
    (unfurl_impl : JSValue -> Run Result) (request : Request) :
  searchParams_url request = Some EmptyString ->
  handleUnfurlRequest_with unfurl_impl request
  = ret {| body := "Missing URL query parameter."; status := 400;
           content_type := None |}.
Proof. unfold handleUnfurlRequest_with. by intros ->. Qed.

(** With the [unfurl] of this file behind it, the handler answers 400
    to every request. *)
Lemma handleUnfurlRequest_always_400
    (fetch : string -> Fetched) (URL_href : string -> string -> option string)
    (request : Request) :
  exists response,
    settled (handleUnfurlRequest fetch URL_href request) = Fulfilled response
    /\ status response = 400.
Proof.
  unfold handleUnfurlRequest, handleUnfurlRequest_with.
  destruct (searchParams_url request) as [s|]; [|by eexists].
  destruct s as [|c s]; [by eexists|]. simpl.
  unfold unfurl. rewrite rejects_param_always. by eexists.
Qed.

(** * Further properties of the code *)

(** ** The pass, handler by handler *)

Lemma dispatch_meta (h : Handlers) (ev : TagEvent) :
  meta_ (dispatch h ev)
  = fold_left MetaExtractor.element (elements_named "meta" [ev]) (meta_ h).
Proof.
  destruct ev as [el | tag chunk]; simpl.
  - destruct (String.eqb (tagName el) "meta"); [reflexivity|].
    destruct (String.eqb (tagName el) "link"); reflexivity.
  - destruct (String.eqb tag "title"); reflexivity.
Qed.

Lemma dispatch_icon (h : Handlers) (ev : TagEvent) :
  icon_ (dispatch h ev)
  = fold_left IconExtractor.element (elements_named "link" [ev]) (icon_ h).
Proof.
  destruct ev as [el | tag chunk]; simpl.
  - destruct (String.eqb_spec (tagName el) "meta") as [Hm | Hm].
    + rewrite Hm. reflexivity.
    + destruct (String.eqb (tagName el) "link"); reflexivity.
  - destruct (String.eqb tag "title"); reflexivity.
Qed.

Lemma elements_named_cons (tag : string) (ev : TagEvent)
    (rest : list TagEvent) :
  elements_named tag (ev :: rest)
  = (elements_named tag [ev] ++ elements_named tag rest)%list.
Proof.
  destruct ev as [el | t chunk]; simpl; [|reflexivity].
  destruct (String.eqb (tagName el) tag); reflexivity.
Qed.

Lemma dispatch_unobserved (h : Handlers) (ev : TagEvent) :
  observed ev = false -> dispatch h ev = h.
Proof.
  destruct ev as [el | tag chunk]; simpl.
  - intros [-> ->]%orb_false_elim. reflexivity.
  - intros ->. reflexivity.
Qed.

Lemma transform_meta (events : list TagEvent) :
  forall h,
    meta_ (transform h events)
    = fold_left MetaExtractor.element (elements_named "meta" events)
        (meta_ h).
Proof.
  induction events as [|ev rest IH]; intros h; [reflexivity|].
  rewrite transform_cons, IH, dispatch_meta, (elements_named_cons _ ev rest).
  by rewrite fold_left_app.
Qed.

Lemma transform_icon (events : list TagEvent) :
  forall h,
    icon_ (transform h events)
    = fold_left IconExtractor.element (elements_named "link" events)
        (icon_ h).
Proof.
  induction events as [|ev rest IH]; intros h; [reflexivity|].
  rewrite transform_cons, IH, dispatch_icon, (elements_named_cons _ ev rest).
  by rewrite fold_left_app.
Qed.

Lemma transform_observed (events : list TagEvent) :
  forall h, transform h (List.filter observed events) = transform h events.
Proof.
  induction events as [|ev rest IH]; intros h; [reflexivity|].
  cbn [List.filter]. destruct (observed ev) eqn:Hobs.
  - rewrite !transform_cons. apply IH.
  - rewrite transform_cons, (dispatch_unobserved h ev Hobs). apply IH.
Qed.

(** X1.  The three handlers do not interfere: at the end of a pass
    [meta$] is what its own [element] method makes of the [meta] start
    tags alone, [icon$] what its [element] method makes of the [link]
    start tags alone, and [title$.string] the text of the title chunks
    appended to what it was; events no handler is registered for can be
    dropped without changing anything. *)
Theorem pass_decomposes (events : list TagEvent) (h : Handlers) :
  meta_ (transform h events)
  = fold_left MetaExtractor.element (elements_named "meta" events) (meta_ h)
  /\ icon_ (transform h events)
     = fold_left IconExtractor.element (elements_named "link" events)
         (icon_ h)
  /\ TextExtractor.string (title_ (transform h events))
     = String.append (TextExtractor.string (title_ h)) (title_text events)
  /\ transform h (List.filter observed events) = transform h events.
Proof.
  split; [apply transform_meta|].
  split; [apply transform_icon|].
  split; [apply transform_title | apply transform_observed].
Qed.

Lemma title_text_app (a b : list TagEvent) :
  title_text (a ++ b) = String.append (title_text a) (title_text b).
Proof.
  induction a as [|ev rest IH]; [reflexivity|].
  destruct ev as [el | tag chunk]; simpl; [exact IH|].
  destruct (String.eqb tag "title"); [|exact IH].
  by rewrite IH, append_assoc.
Qed.

(** X2.  When the body is read to its end and neither [og:title] nor
    [twitter:title] holds a value, the title returned is the text of the
    title's chunks joined in arrival order, however the text was split
    into events and whatever other events lie in between. *)
Theorem title_is_joined_text
    (fetch : string -> Fetched) (URL_href : string -> string -> option string)
    (url : string) (events : list TagEvent) :
  fetch url = Streamed events true ->
  prop (MetaExtractor.og (meta_ (transform new_handlers events))) "og:title"
  = None ->
  prop (MetaExtractor.twitter (meta_ (transform new_handlers events)))
       "twitter:title"
  = None ->
  title_candidate (transform new_handlers events) = Some (title_text events)
  /\ (forall r,
        settled (unfurl_checked fetch URL_href url) = Fulfilled r ->
        exists d, value r = Some d /\ title d = Some (title_text events))
  /\ (forall a b : list TagEvent,
        events = (a ++ b)%list ->
        title_text events = String.append (title_text a) (title_text b)).
Proof.
  intros Hfetch Hog Htw.
  assert (title_candidate (transform new_handlers events)
          = Some (title_text events)) as Hcand.
  { unfold title_candidate. rewrite Hog, Htw, transform_title. reflexivity. }
  split; [exact Hcand|]. split.
  - intros r Hr.
    apply (unfurl_checked_fulfilled _ _ _ _ _
             (try_transform_streamed _ _ _ Hfetch)) in Hr.
    apply select_fulfilled in Hr as (img & fav & _ & _ & ->).
    eexists. split; [reflexivity|]. exact Hcand.
  - intros a b ->. apply title_text_app.
Qed.

Lemma title_is_joined_text_witness :
  let events :=
    [Text "title" "Hel"; link_element [("rel", "icon"); ("href", "/i.png")];
     Text "p" "body"; Text "title" "lo"] in
  title_candidate (transform new_handlers events) = Some "Hello".
Proof.
  intros events.
  exact (proj1 (title_is_joined_text (serve events) sample_URL_href
                  "https://example.com/" events eq_refl eq_refl eq_refl)).
Defined.

(** ** What [MetaExtractor] keeps *)

Lemma present_with_prefix_Some (v : option string) (needle key : string) :
  present_with_prefix v needle = Some key ->
  v = Some key /\ startsWith key needle = true.
Proof.
  destruct v as [s|]; simpl; [|discriminate].
  destruct (startsWith s needle) eqn:Hp; [|discriminate].
  by intros [= <-].
Qed.

Lemma meta_rule_og (el : Element) (key : string) :
  meta_rule el = StoreOpenGraph key ->
  getAttribute el "property" = Some key /\ startsWith key "og:" = true.
Proof.
  unfold meta_rule.
  destruct (present_with_prefix (getAttribute el "property") "og:")
    as [p|] eqn:Hp.
  - intros [= <-]. by apply present_with_prefix_Some.
  - destruct (present_with_prefix (getAttribute el "name") "twitter:");
      [discriminate|].
    destruct (decide _); discriminate.
Qed.

Lemma meta_rule_twitter (el : Element) (key : string) :
  meta_rule el = StoreTwitter key ->
  getAttribute el "name" = Some key /\ startsWith key "twitter:" = true.
Proof.
  unfold meta_rule.
  destruct (present_with_prefix (getAttribute el "property") "og:");
    [discriminate|].
  destruct (present_with_prefix (getAttribute el "name") "twitter:")
    as [n|] eqn:Hn.
  - intros [= <-]. by apply present_with_prefix_Some.
  - destruct (decide _); discriminate.
Qed.

Lemma element_keys (this : MetaExtractor.t) (el : Element) :
  (forall key, is_Some (MetaExtractor.og this !! key) ->
               startsWith key "og:" = true) ->
  (forall key, is_Some (MetaExtractor.twitter this !! key) ->
               startsWith key "twitter:" = true) ->
  (forall key, is_Some (MetaExtractor.og (MetaExtractor.element this el)
                        !! key) ->
               startsWith key "og:" = true)
  /\ (forall key,
        is_Some (MetaExtractor.twitter (MetaExtractor.element this el)
                 !! key) ->
        startsWith key "twitter:" = true).
Proof.
  intros Hog Htw. rewrite element_refines_rule.
  destruct (meta_rule el) as [k | k | |] eqn:Hrule; simpl;
    try (split; assumption).
  - split; [|exact Htw]. intros key.
    destruct (decide (k = key)) as [<- | Hne].
    + intros _. by apply (meta_rule_og el).
    + rewrite lookup_insert_ne by exact Hne. apply Hog.
  - split; [exact Hog|]. intros key.
    destruct (decide (k = key)) as [<- | Hne].
    + intros _. by apply (meta_rule_twitter el).
    + rewrite lookup_insert_ne by exact Hne. apply Htw.
Qed.

(** X3.  Whatever the document, every key [meta$.og] ends up with
    starts with [og:] and every key of [meta$.twitter] starts with
    [twitter:]; no [meta] element can write under another name (such as
    a property every object inherits). *)
Theorem meta_keys_prefixed (events : list TagEvent) (key : string) :
  (is_Some (MetaExtractor.og (meta_ (transform new_handlers events)) !! key) ->
   startsWith key "og:" = true)
  /\ (is_Some (MetaExtractor.twitter (meta_ (transform new_handlers events))
               !! key) ->
      startsWith key "twitter:" = true).
Proof.
  rewrite transform_meta.
  cut ((forall k, is_Some (MetaExtractor.og
                    (fold_left MetaExtractor.element
                       (elements_named "meta" events)
                       (meta_ new_handlers)) !! k) ->
                  startsWith k "og:" = true)
       /\ (forall k, is_Some (MetaExtractor.twitter
                       (fold_left MetaExtractor.element
                          (elements_named "meta" events)
                          (meta_ new_handlers)) !! k) ->
                     startsWith k "twitter:" = true)).
  { intros [Hog Htw]. split; [apply Hog | apply Htw]. }
  generalize (elements_named "meta" events). intros els.
  assert (forall k, is_Some (MetaExtractor.og (meta_ new_handlers) !! k) ->
                    startsWith k "og:" = true) as Hog0.
  { intros k [x Hx]. simpl in Hx. by rewrite lookup_empty in Hx. }
  assert (forall k, is_Some (MetaExtractor.twitter (meta_ new_handlers) !! k) ->
                    startsWith k "twitter:" = true) as Htw0.
  { intros k [x Hx]. simpl in Hx. by rewrite lookup_empty in Hx. }
  revert Hog0 Htw0. generalize (meta_ new_handlers).
  induction els as [|el els IH]; intros this Hog Htw; [by split|].
  simpl. destruct (element_keys this el Hog Htw) as [Hog' Htw'].
  by apply IH.
Qed.

Lemma meta_keys_prefixed_witness :
  let events :=
    [meta_element [("property", "og:type"); ("content", "article")];
     meta_element [("property", "constructor"); ("content", "x")];
     meta_element [("name", "twitter:card"); ("content", "summary")]] in
  startsWith "og:type" "og:" = true
  /\ MetaExtractor.og (meta_ (transform new_handlers events)) !! "constructor"
     = None.
Proof.
  intros events. split.
  - apply (meta_keys_prefixed events "og:type"). by eexists.
  - destruct (MetaExtractor.og (meta_ (transform new_handlers events))
              !! "constructor") as [x|] eqn:Hx; [|reflexivity].
    assert (startsWith "constructor" "og:" = true) as Hfalse.
    { apply (meta_keys_prefixed events "constructor").
      exists x. exact Hx. }
    discriminate Hfalse.
Defined.

Lemma MetaRule_eq_dec (a b : MetaRule) : {a = b} + {a <> b}.
Proof. decide equality; apply string_dec. Qed.

Lemma stores_under_dec (rule : MetaRule) (ev : TagEvent) :
  stores_under rule ev \/ ~ stores_under rule ev.
Proof.
  destruct ev as [el | tag chunk]; simpl; [|right; intros []].
  destruct (decide (tagName el = "meta")) as [Htag | Htag];
    [|right; by intros [? _]].
  destruct (MetaRule_eq_dec (meta_rule el) rule) as [Hrule | Hrule];
    [by left | right; by intros [_ ?]].
Qed.

Lemma dispatch_stored_kept (h : Handlers) (ev : TagEvent) (rule : MetaRule) :
  is_Some (stored rule (meta_ h)) ->
  is_Some (stored rule (meta_ (dispatch h ev))).
Proof.
  intros Hheld.
  destruct (stores_under_dec rule ev) as [Hs | Hs].
  - destruct ev as [el | tag chunk]; [|destruct Hs].
    destruct Hs as [Htag Hrule]. simpl. rewrite Htag. simpl.
    rewrite element_refines_rule, Hrule.
    destruct (MetaRule_eq_dec rule IgnoreElement) as [Hi | Hi].
    + rewrite Hi in Hheld. destruct Hheld as [x Hx]. discriminate Hx.
    + rewrite stored_apply_same by exact Hi. by eexists.
  - by rewrite dispatch_stored_other.
Qed.

Lemma transform_stored_kept (events : list TagEvent) (rule : MetaRule) :
  forall h,
    is_Some (stored rule (meta_ h)) ->
    is_Some (stored rule (meta_ (transform h events))).
Proof.
  induction events as [|ev rest IH]; intros h Hheld; [exact Hheld|].
  rewrite transform_cons. apply IH. by apply dispatch_stored_kept.
Qed.

(** X4.  Nothing is ever removed from [meta$.og] or [meta$.twitter]:
    a key that has been written is still there at the end of the pass,
    whatever follows (its value may have been overwritten). *)
Theorem meta_never_forgets
    (h : Handlers) (events : list TagEvent) (key : string) :
  (is_Some (MetaExtractor.og (meta_ h) !! key) ->
   is_Some (MetaExtractor.og (meta_ (transform h events)) !! key))
  /\ (is_Some (MetaExtractor.twitter (meta_ h) !! key) ->
      is_Some (MetaExtractor.twitter (meta_ (transform h events)) !! key)).
Proof.
  split.
  - apply (transform_stored_kept events (StoreOpenGraph key) h).
  - apply (transform_stored_kept events (StoreTwitter key) h).
Qed.

Lemma meta_never_forgets_witness :
  let first := [meta_element [("property", "og:title"); ("content", "A")]] in
  let rest :=
    [meta_element [("property", "og:title")];
     meta_element [("property", "og:image"); ("content", "/i.png")]] in
  is_Some (MetaExtractor.og
             (meta_ (transform (transform new_handlers first) rest))
           !! "og:title").
Proof.
  intros first rest.
  apply (meta_never_forgets (transform new_handlers first) rest "og:title").
  by eexists.
Defined.

(** X5.  [MetaExtractor.element] writes in one place only: a key of
    [og] other than the element's [property] keeps what it held, a key
    of [twitter] other than the element's [name] keeps what it held, and
    [description] is untouched unless [name] is [description]. *)
Theorem meta_element_frame
    (this : MetaExtractor.t) (el : Element) (key : string) :
  (getAttribute el "property" <> Some key ->
   MetaExtractor.og (MetaExtractor.element this el) !! key
   = MetaExtractor.og this !! key)
  /\ (getAttribute el "name" <> Some key ->
      MetaExtractor.twitter (MetaExtractor.element this el) !! key
      = MetaExtractor.twitter this !! key)
  /\ (getAttribute el "name" <> Some "description" ->
      MetaExtractor.description (MetaExtractor.element this el)
      = MetaExtractor.description this).
Proof.
  rewrite element_refines_rule.
  destruct (meta_rule el) as [k | k | |] eqn:Hrule; simpl.
  - apply meta_rule_og in Hrule as [Hp _].
    split; [|by split]. intros Hne. apply lookup_insert_ne. congruence.
  - apply meta_rule_twitter in Hrule as [Hn _].
    split; [done|]. split; [|done].
    intros Hne. apply lookup_insert_ne. congruence.
  - split; [done|]. split; [done|]. intros Hne. exfalso.
    unfold meta_rule in Hrule.
    destruct (present_with_prefix (getAttribute el "property") "og:");
      [discriminate|].
    destruct (present_with_prefix (getAttribute el "name") "twitter:");
      [discriminate|].
    destruct (decide (getAttribute el "name" = Some "description"));
      [contradiction | discriminate].
  - by repeat split.
Qed.

Lemma meta_element_frame_witness :
  let this := {| MetaExtractor.og := {[ "og:title" := Some "T" ]};
                 MetaExtractor.twitter := {[ "twitter:title" := Some "U" ]};
                 MetaExtractor.description := Some "D" |} in
  let el := {| tagName := "meta";
               attributes := [("property", "og:image"); ("name", "description");
                              ("content", "/i.png")] |} in
  MetaExtractor.og (MetaExtractor.element this el) !! "og:title"
  = Some (Some "T")
  /\ MetaExtractor.twitter (MetaExtractor.element this el) !! "twitter:title"
     = Some (Some "U").
Proof.
  intros this el. split.
  - destruct (meta_element_frame this el "og:title") as (Hog & _).
    rewrite Hog by discriminate. reflexivity.
  - destruct (meta_element_frame this el "twitter:title") as (_ & Htw & _).
    rewrite Htw by discriminate. reflexivity.
Defined.

(** X6.  A later [og:title] meta without a [content] attribute stores
    [null] over whatever an earlier one stored: if the last [og:title]
    meta of the document has no content, the title comes from
    [twitter:title], else from the title text, as if [og:title] had
    never been given. *)
Theorem later_og_title_without_content
    (pre post : list TagEvent) (el : Element) :
  tagName el = "meta" ->
  getAttribute el "property" = Some "og:title" ->
  getAttribute el "content" = None ->
  Forall (fun ev => ~ stores_under (StoreOpenGraph "og:title") ev) post ->
  let h := transform new_handlers (pre ++ ElementStart el :: post) in
  MetaExtractor.og (meta_ h) !! "og:title" = Some None
  /\ title_candidate h
     = first_present
         [prop (MetaExtractor.twitter (meta_ h)) "twitter:title";
          Some (TextExtractor.string (title_ h))].
Proof.
  intros Htag Hp Hc Hpost h.
  assert (meta_rule el = StoreOpenGraph "og:title") as Hrule.
  { unfold meta_rule. by rewrite Hp. }
  pose proof (transform_stored_last pre post el _ new_handlers
                Htag Hrule ltac:(discriminate) Hpost) as Hlast.
  simpl in Hlast. rewrite Hc in Hlast. fold h in Hlast.
  split; [exact Hlast|].
  unfold title_candidate, prop. rewrite Hlast. simpl.
  destruct (MetaExtractor.twitter (meta_ h) !! "twitter:title")
    as [[v|]|]; reflexivity.
Qed.

Lemma later_og_title_without_content_witness :
  let el := {| tagName := "meta";
               attributes := [("property", "og:title")] |} in
  title_candidate
    (transform new_handlers
       ([meta_element [("property", "og:title"); ("content", "Card")];
         Text "title" "Tag"]
        ++ ElementStart el :: [Text "title" " text"])%list)
  = Some "Tag text".
Proof.
  intros el.
  destruct (later_og_title_without_content
              [meta_element [("property", "og:title"); ("content", "Card")];
               Text "title" "Tag"]
              [Text "title" " text"] el eq_refl eq_refl eq_refl)
    as [_ Htitle].
  - constructor; [intros []|]. constructor.
  - rewrite Htitle. reflexivity.
Defined.

(** ** The description *)

Lemma stored_never_written (events : list TagEvent) (rule : MetaRule) :
  Forall (fun ev => ~ stores_under rule ev) events ->
  stored rule (meta_ (transform new_handlers events))
  = stored rule MetaExtractor.new.
Proof. intros Hnone. by rewrite transform_stored_other. Qed.

(** X7.  The description returned is [og:description] if it holds a
    value, else [twitter:description], else the content of
    [meta name=description], else absent.  The last [og:description]
    meta with a content decides it whatever else the document holds, and
    a document with no meta under any of the three names has no
    description at all ([undefined], unlike the title, which is then the
    empty string). *)
Theorem description_priority
    (fetch : string -> Fetched) (URL_href : string -> string -> option string)
    (url : string) (events : list TagEvent) :
  fetch url = Streamed events true ->
  let h := transform new_handlers events in
  (forall r,
     settled (unfurl_checked fetch URL_href url) = Fulfilled r ->
     exists d,
       value r = Some d
       /\ description d
          = first_present
              [prop (MetaExtractor.og (meta_ h)) "og:description";
               prop (MetaExtractor.twitter (meta_ h)) "twitter:description";
               MetaExtractor.description (meta_ h)])
  /\ (forall (pre : list TagEvent) (el : Element) (post : list TagEvent)
             (v : string),
        events = (pre ++ ElementStart el :: post)%list ->
        tagName el = "meta" ->
        getAttribute el "property" = Some "og:description" ->
        getAttribute el "content" = Some v ->
        Forall (fun ev => ~ stores_under (StoreOpenGraph "og:description") ev)
          post ->
        description_candidate h = Some v)
  /\ (Forall (fun ev => ~ stores_under (StoreOpenGraph "og:description") ev)
        events ->
      Forall (fun ev => ~ stores_under (StoreTwitter "twitter:description") ev)
        events ->
      Forall (fun ev => ~ stores_under StoreDescription ev) events ->
      description_candidate h = None).
Proof.
  intros Hfetch h. split; [|split].
  - intros r Hr.
    apply (unfurl_checked_fulfilled _ _ _ _ _
             (try_transform_streamed _ _ _ Hfetch)) in Hr.
    apply select_fulfilled in Hr as (img & fav & _ & _ & ->).
    eexists. split; [reflexivity|]. simpl.
    unfold description_candidate, nullish. fold h.
    destruct (prop (MetaExtractor.og (meta_ h)) "og:description");
      [reflexivity|].
    destruct (prop (MetaExtractor.twitter (meta_ h)) "twitter:description");
      [reflexivity|].
    destruct (MetaExtractor.description (meta_ h)); reflexivity.
  - intros pre el post v -> Htag Hp Hc Hpost.
    assert (meta_rule el = StoreOpenGraph "og:description") as Hrule.
    { unfold meta_rule. by rewrite Hp. }
    pose proof (transform_stored_last pre post el _ new_handlers
                  Htag Hrule ltac:(discriminate) Hpost) as Hlast.
    unfold description_candidate, prop. subst h. simpl in Hlast.
    rewrite Hlast, Hc. reflexivity.
  - intros Hog Htw Hdesc.
    pose proof (stored_never_written events _ Hog) as Eog.
    pose proof (stored_never_written events _ Htw) as Etw.
    pose proof (stored_never_written events _ Hdesc) as Edesc.
    simpl in Eog, Etw, Edesc. fold h in Eog, Etw, Edesc.
    rewrite lookup_empty in Eog. rewrite lookup_empty in Etw.
    injection Edesc as Edesc.
    unfold description_candidate, prop. by rewrite Eog, Etw, Edesc.
Qed.

Lemma description_priority_witness :
  let el := {| tagName := "meta";
               attributes := [("property", "og:description");
                              ("content", "Card text")] |} in
  let events :=
    [meta_element [("name", "description"); ("content", "Plain text")];
     ElementStart el;
     meta_element [("name", "twitter:description"); ("content", "Tweet")]] in
  description_candidate (transform new_handlers events) = Some "Card text".
Proof.
  intros el events.
  refine (proj1 (proj2 (description_priority (serve events) sample_URL_href
                          "https://example.com/" events eq_refl))
            [meta_element [("name", "description"); ("content", "Plain text")]]
            el _ "Card text" eq_refl eq_refl eq_refl eq_refl _).
  constructor; [intros [_ Hrule]; discriminate Hrule|]. constructor.
Defined.

(** ** The favicon across a document *)

Lemma dispatch_appleIcon_other (h : Handlers) (ev : TagEvent) :
  ~ link_with_rel "apple-touch-icon" ev ->
  IconExtractor.appleIcon (icon_ (dispatch h ev))
  = IconExtractor.appleIcon (icon_ h).
Proof.
  intros Hnot. destruct ev as [el | tag chunk]; simpl.
  - destruct (String.eqb_spec (tagName el) "meta") as [Hm | Hm];
      [reflexivity|].
    destruct (String.eqb_spec (tagName el) "link") as [Hl | Hl];
      [|reflexivity].
    simpl. unfold IconExtractor.element.
    destruct (decide (getAttribute el "rel" = Some "icon")); [reflexivity|].
    destruct (decide (getAttribute el "rel" = Some "apple-touch-icon"))
      as [Hrel | Hrel]; [|reflexivity].
    exfalso. apply Hnot. by split.
  - destruct (String.eqb tag "title"); reflexivity.
Qed.

Lemma dispatch_icon_other (h : Handlers) (ev : TagEvent) :
  ~ link_with_rel "icon" ev ->
  IconExtractor.icon (icon_ (dispatch h ev)) = IconExtractor.icon (icon_ h).
Proof.
  intros Hnot. destruct ev as [el | tag chunk]; simpl.
  - destruct (String.eqb_spec (tagName el) "meta") as [Hm | Hm];
      [reflexivity|].
    destruct (String.eqb_spec (tagName el) "link") as [Hl | Hl];
      [|reflexivity].
    simpl. unfold IconExtractor.element.
    destruct (decide (getAttribute el "rel" = Some "icon")) as [Hrel | Hrel].
    + exfalso. apply Hnot. by split.
    + destruct (decide _); reflexivity.
  - destruct (String.eqb tag "title"); reflexivity.
Qed.

Lemma transform_appleIcon_other (events : list TagEvent) :
  Forall (fun ev => ~ link_with_rel "apple-touch-icon" ev) events ->
  forall h,
    IconExtractor.appleIcon (icon_ (transform h events))
    = IconExtractor.appleIcon (icon_ h).
Proof.
  induction 1 as [|ev rest Hev _ IH]; intros h; [reflexivity|].
  rewrite transform_cons, IH. by apply dispatch_appleIcon_other.
Qed.

Lemma transform_icon_other (events : list TagEvent) :
  Forall (fun ev => ~ link_with_rel "icon" ev) events ->
  forall h,
    IconExtractor.icon (icon_ (transform h events))
    = IconExtractor.icon (icon_ h).
Proof.
  induction 1 as [|ev rest Hev _ IH]; intros h; [reflexivity|].
  rewrite transform_cons, IH. by apply dispatch_icon_other.
Qed.

Lemma dispatch_link (h : Handlers) (el : Element) :
  tagName el = "link" ->
  icon_ (dispatch h (ElementStart el)) = IconExtractor.element (icon_ h) el.
Proof. intros Htag. simpl. rewrite Htag. reflexivity. Qed.

(** X8.  Where the links stand in the document does not matter to the
    choice between them.  The last [apple-touch-icon] link decides
    [appleIcon] even when [icon] links come after it: the favicon
    candidate is its href when it has one, and the [icon] href when it
    has none ([null] is stored and [??] passes over it).  Without any
    [apple-touch-icon] link the candidate is the href of the last [icon]
    link, absent when that link has no href; and a document with neither
    kind of link has no favicon. *)
Theorem favicon_across_document
    (pre post : list TagEvent) (el : Element) :
  tagName el = "link" ->
  (getAttribute el "rel" = Some "apple-touch-icon" ->
   Forall (fun ev => ~ link_with_rel "apple-touch-icon" ev) post ->
   forall h,
     IconExtractor.appleIcon
       (icon_ (transform h (pre ++ ElementStart el :: post)))
     = getAttribute el "href"
     /\ favicon_candidate (transform h (pre ++ ElementStart el :: post))
        = first_present
            [getAttribute el "href";
             IconExtractor.icon
               (icon_ (transform h (pre ++ ElementStart el :: post)))]
     /\ (forall v, getAttribute el "href" = Some v ->
           favicon_candidate (transform h (pre ++ ElementStart el :: post))
           = Some v))
  /\ (getAttribute el "rel" = Some "icon" ->
      Forall (fun ev => ~ link_with_rel "icon" ev) post ->
      Forall (fun ev => ~ link_with_rel "apple-touch-icon" ev)
        (pre ++ ElementStart el :: post) ->
      favicon_candidate
        (transform new_handlers (pre ++ ElementStart el :: post))
      = getAttribute el "href")
  /\ (forall events,
        Forall (fun ev => ~ link_with_rel "apple-touch-icon" ev) events ->
        Forall (fun ev => ~ link_with_rel "icon" ev) events ->
        favicon_candidate (transform new_handlers events) = None).
Proof.
  intros Htag. split; [|split].
  - intros Hrel Hpost h.
    assert (IconExtractor.appleIcon
              (icon_ (transform h (pre ++ ElementStart el :: post)))
            = getAttribute el "href") as Happle.
    { rewrite transform_app, transform_cons,
        (transform_appleIcon_other post Hpost), (dispatch_link _ el Htag).
      unfold IconExtractor.element.
      rewrite decide_False by (rewrite Hrel; discriminate).
      rewrite decide_True by exact Hrel. reflexivity. }
    assert (favicon_candidate (transform h (pre ++ ElementStart el :: post))
            = first_present
                [getAttribute el "href";
                 IconExtractor.icon
                   (icon_ (transform h (pre ++ ElementStart el :: post)))])
      as Hcand.
    { rewrite first_present_favicon, Happle. reflexivity. }
    split; [exact Happle|]. split; [exact Hcand|].
    intros v Hhref. rewrite Hcand, Hhref. reflexivity.
  - intros Hrel Hpost Hall.
    unfold favicon_candidate.
    rewrite (transform_appleIcon_other _ Hall).
    rewrite transform_app, transform_cons,
      (transform_icon_other post Hpost), (dispatch_link _ el Htag).
    unfold IconExtractor.element.
    rewrite decide_True by exact Hrel.
    simpl. destruct (getAttribute el "href"); reflexivity.
  - intros events Happle Hicon.
    unfold favicon_candidate.
    rewrite (transform_appleIcon_other _ Happle),
      (transform_icon_other _ Hicon).
    reflexivity.
Qed.

Lemma favicon_across_document_witness :
  let apple := {| tagName := "link";
                  attributes := [("rel", "apple-touch-icon");
                                 ("href", "/apple.png")] |} in
  let bare := {| tagName := "link";
                 attributes := [("rel", "apple-touch-icon")] |} in
  favicon_candidate
    (transform new_handlers
       ([link_element [("rel", "icon"); ("href", "/first.ico")]]
        ++ ElementStart apple
           :: [link_element [("rel", "icon"); ("href", "/last.ico")]])%list)
  = Some "/apple.png"
  /\ favicon_candidate
       (transform new_handlers
          ([link_element [("rel", "icon"); ("href", "/first.ico")];
            ElementStart apple]
           ++ ElementStart bare
              :: [link_element [("rel", "icon"); ("href", "/last.ico")]])%list)
     = Some "/last.ico".
Proof.
  intros apple bare. split.
  - destruct (favicon_across_document
                [link_element [("rel", "icon"); ("href", "/first.ico")]]
                [link_element [("rel", "icon"); ("href", "/last.ico")]]
                apple eq_refl)
      as [Happle _].
    refine (proj2 (proj2 (Happle eq_refl _ new_handlers)) "/apple.png"
              eq_refl).
    constructor; [intros [_ Hrel]; discriminate Hrel|]. constructor.
  - destruct (favicon_across_document
                [link_element [("rel", "icon"); ("href", "/first.ico")];
                 ElementStart apple]
                [link_element [("rel", "icon"); ("href", "/last.ico")]]
                bare eq_refl)
      as [Hbare _].
    assert (Forall (fun ev => ~ link_with_rel "apple-touch-icon" ev)
              [link_element [("rel", "icon"); ("href", "/last.ico")]])
      as Hpost.
    { constructor; [intros [_ Hrel]; discriminate Hrel|]. constructor. }
    rewrite (proj1 (proj2 (Hbare eq_refl Hpost new_handlers))).
    reflexivity.
Defined.

(** ** Documents without metadata *)

Lemma elements_named_none (tag : string) (events : list TagEvent) :
  (forall el, In (ElementStart el) events -> tagName el <> tag) ->
  elements_named tag events = [].
Proof.
  induction events as [|ev rest IH]; intros Hnone; [reflexivity|].
  destruct ev as [el | t chunk]; simpl.
  - destruct (String.eqb_spec (tagName el) tag) as [Heq | Hne].
    + exfalso. apply (Hnone el); [by left | exact Heq].
    + apply IH. intros el' Hin. apply Hnone. by right.
  - apply IH. intros el' Hin. apply Hnone. by right.
Qed.

(** X9.  A page with no [meta] and no [link] element still unfurls
    successfully, without consulting [new URL]: description, image and
    favicon are absent and the title is the text of its [title] element
    (the empty string when there is none). *)
Theorem page_without_metadata
    (fetch : string -> Fetched) (URL_href : string -> string -> option string)
    (url : string) (events : list TagEvent) :
  fetch url = Streamed events true ->
  (forall el, In (ElementStart el) events ->
              tagName el <> "meta" /\ tagName el <> "link") ->
  unfurl_checked fetch URL_href url
  = {| calls := [CallFetch url];
       settled :=
         Fulfilled (GoodResult {| title := Some (title_text events);
                                  description := None;
                                  image := None;
                                  favicon := None |}) |}.
Proof.
  intros Hfetch Hplain.
  unfold unfurl_checked. rewrite (try_transform_streamed _ _ _ Hfetch).
  f_equal.
  assert (meta_ (transform new_handlers events) = MetaExtractor.new) as Hm.
  { rewrite transform_meta, elements_named_none; [reflexivity|].
    intros el Hin. by apply Hplain. }
  assert (icon_ (transform new_handlers events) = IconExtractor.new) as Hi.
  { rewrite transform_icon, elements_named_none; [reflexivity|].
    intros el Hin. by apply Hplain. }
  unfold select, title_candidate, description_candidate, image_candidate,
    favicon_candidate.
  rewrite Hm, Hi, transform_title. reflexivity.
Qed.

Lemma page_without_metadata_witness :
  let events :=
    [ElementStart {| tagName := "html"; attributes := [("lang", "en")] |};
     Text "title" "Plain page";
     ElementStart {| tagName := "script";
                     attributes := [("src", "/app.js")] |}] in
  unfurl_checked (serve events) (fun _ _ => None) "https://example.com/"
  = {| calls := [CallFetch "https://example.com/"];
       settled :=
         Fulfilled (GoodResult {| title := Some "Plain page";
                                  description := None;
                                  image := None;
                                  favicon := None |}) |}.
Proof.
  intros events.
  apply (page_without_metadata (serve events) (fun _ _ => None)
           "https://example.com/" events eq_refl).
  intros el [Hin | [Hin | [Hin | []]]]; try discriminate Hin;
    injection Hin as <-; split; discriminate.
Defined.

(** ** Lines 80-85: when [new URL] is called and what a throw does *)

Lemma absolute_kept (URL_href : string -> string -> option string)
    (x : option string) (url : string) :
  kept_as_is x -> absolute URL_href x url = Some x.
Proof.
  intros [-> | [-> | (c & -> & Hp)]]; try reflexivity.
  by apply absolute_unchanged.
Qed.

(** X10.  [new URL] is not called for a candidate that is absent, is
    the empty string, or starts with [http]: with both candidates of
    that kind the four fields are returned exactly as selected, whatever
    the platform's [URL] would do - in particular an empty [href] or
    [content] is returned as the empty string, not resolved. *)
Theorem no_resolution_needed
    (URL_href : string -> string -> option string)
    (url : string) (h : Handlers) :
  kept_as_is (image_candidate h) ->
  kept_as_is (favicon_candidate h) ->
  select URL_href url h
  = Fulfilled (GoodResult {| title := title_candidate h;
                             description := description_candidate h;
                             image := image_candidate h;
                             favicon := favicon_candidate h |}).
Proof.
  intros Himg Hfav. unfold select.
  by rewrite (absolute_kept _ _ _ Himg), (absolute_kept _ _ _ Hfav).
Qed.

Lemma no_resolution_needed_witness :
  let h :=
    transform new_handlers
      [meta_element [("property", "og:image"); ("content", "httpx")];
       link_element [("rel", "icon"); ("href", EmptyString)]] in
  select (fun _ _ => None) "https://example.com/" h
  = Fulfilled (GoodResult {| title := Some EmptyString;
                             description := None;
                             image := Some "httpx";
                             favicon := Some EmptyString |}).
Proof.
  intros h.
  apply (no_resolution_needed (fun _ _ => None) "https://example.com/" h).
  - right. right. exists "httpx". by split.
  - right. left. reflexivity.
Defined.

Lemma absolute_throws (URL_href : string -> string -> option string)
    (c url : string) :
  c <> EmptyString -> startsWith c "http" = false ->
  URL_href c url = None ->
  absolute URL_href (Some c) url = None.
Proof.
  intros Hc Hp Hthrow. unfold absolute.
  by rewrite (needs_base_true c Hc Hp), Hthrow.
Qed.

(** X11.  The two [new URL] calls stand after the [try] block: when the
    body was read to its end and the image or favicon candidate is a
    non-empty string not starting with [http] that [new URL] refuses,
    the promise of [unfurl]'s body rejects - the caller gets neither a
    value nor [failed-fetch]. *)
Theorem unparsable_candidate_rejects
    (fetch : string -> Fetched) (URL_href : string -> string -> option string)
    (url : string) (events : list TagEvent) (c : string) :
  fetch url = Streamed events true ->
  image_candidate (transform new_handlers events) = Some c
  \/ favicon_candidate (transform new_handlers events) = Some c ->
  c <> EmptyString ->
  startsWith c "http" = false ->
  URL_href c url = None ->
  unfurl_checked fetch URL_href url
  = {| calls := [CallFetch url]; settled := Rejected |}.
Proof.
  intros Hfetch Hcand Hc Hp Hthrow.
  unfold unfurl_checked. rewrite (try_transform_streamed _ _ _ Hfetch).
  f_equal. unfold select.
  destruct Hcand as [Himg | Hfav].
  - by rewrite Himg, (absolute_throws _ _ _ Hc Hp Hthrow).
  - destruct (absolute URL_href (image_candidate _) url); [|reflexivity].
    by rewrite Hfav, (absolute_throws _ _ _ Hc Hp Hthrow).
Qed.

Lemma unparsable_candidate_rejects_witness :
  let events := [link_element [("rel", "icon"); ("href", "//")]] in
  unfurl_checked (serve events) sample_URL_href "https://example.com/"
  = {| calls := [CallFetch "https://example.com/"]; settled := Rejected |}.
Proof.
  intros events.
  apply (unparsable_candidate_rejects (serve events) sample_URL_href
           "https://example.com/" events "//" eq_refl).
  - right. reflexivity.
  - discriminate.
  - reflexivity.
  - reflexivity.
Defined.

(** ** The outcomes of [unfurl] past the parameter check *)

(** X12.  Past the parameter check the only error is [failed-fetch],
    and it is reported only when [fetch] threw or the body failed before
    its end; a body read to its end never yields an error result,
    whatever it contains. *)
Theorem unfurl_checked_outcomes
    (fetch : string -> Fetched) (URL_href : string -> string -> option string)
    (url : string) (r : Result) :
  settled (unfurl_checked fetch URL_href url) = Fulfilled r ->
  error r <> Some bad_param
  /\ (ok r = false ->
      r = BadResult failed_fetch
      /\ (fetch url = FetchThrows
          \/ exists events, fetch url = Streamed events false))
  /\ (forall events, fetch url = Streamed events true -> ok r = true).
Proof.
  unfold unfurl_checked, try_transform. simpl.
  destruct (fetch url) as [|events completes] eqn:Hfetch.
  - intros [= <-]. split; [discriminate|]. split.
    + intros _. split; [reflexivity | by left].
    + intros events [=].
  - destruct completes.
    + intros Hr. apply select_fulfilled in Hr as (img & fav & _ & _ & ->).
      split; [discriminate|]. split; [discriminate | reflexivity].
    + intros [= <-]. split; [discriminate|]. split.
      * intros _. split; [reflexivity | right; by exists events].
      * intros events' [=].
Qed.

Lemma unfurl_checked_outcomes_witness :
  BadResult failed_fetch = BadResult failed_fetch
  /\ ((fun _ : string => FetchThrows) "https://example.com/" = FetchThrows
      \/ exists events,
           (fun _ : string => FetchThrows) "https://example.com/"
           = Streamed events false).
Proof.
  destruct (unfurl_checked_outcomes (fun _ => FetchThrows) sample_URL_href
              "https://example.com/" (BadResult failed_fetch) eq_refl)
    as (_ & Hfailed & _).
  exact (Hfailed eq_refl).
Defined.

(** ** The request handler, further *)

(** X13.  With the [unfurl] of this file behind it the handler never
    reaches the network and never answers 200 or 422: every request is
    answered 400 with a plain message - the missing-parameter message
    when [url] is absent or empty, the bad-parameter message otherwise -
    and the only call made is the one to [unfurl]. *)
Theorem handleUnfurlRequest_never_fetches
    (fetch : string -> Fetched) (URL_href : string -> string -> option string)
    (request : Request) :
  (forall u, ~ In (CallFetch u)
                  (calls (handleUnfurlRequest fetch URL_href request)))
  /\ (truthy (searchParams_url request) = false ->
      handleUnfurlRequest fetch URL_href request
      = {| calls := [];
           settled := Fulfilled {| body := "Missing URL query parameter.";
                                   status := 400;
                                   content_type := None |} |})
  /\ (forall s, searchParams_url request = Some s -> s <> EmptyString ->
      handleUnfurlRequest fetch URL_href request
      = {| calls := [CallUnfurl (JSString s)];
           settled := Fulfilled {| body := "Bad URL query parameter.";
                                   status := 400;
                                   content_type := None |} |}).
Proof.
  assert (forall s, s <> EmptyString ->
            handleUnfurlRequest fetch URL_href {| searchParams_url := Some s |}
            = {| calls := [CallUnfurl (JSString s)];
                 settled := Fulfilled {| body := "Bad URL query parameter.";
                                         status := 400;
                                         content_type := None |} |}) as Hbad.
  { intros s Hs. unfold handleUnfurlRequest, handleUnfurlRequest_with.
    cbn [searchParams_url]. rewrite (truthy_nonempty s Hs). simpl.
    unfold unfurl. rewrite rejects_param_always. reflexivity. }
  destruct request as [[s|]].
  - destruct (decide (s = EmptyString)) as [-> | Hs].
    + split; [intros u []|]. split; [reflexivity|].
      intros s' [= <-] Hne. congruence.
    + split; [|split].
      * intros u. rewrite (Hbad s Hs). simpl. intros [Hin | []].
        discriminate Hin.
      * cbn [searchParams_url]. rewrite (truthy_nonempty s Hs). discriminate.
      * intros s' [= <-] _. by apply Hbad.
  - split; [intros u []|]. split; [reflexivity|]. intros s' [=].
Qed.

Lemma handleUnfurlRequest_never_fetches_witness :
  handleUnfurlRequest
    (serve [meta_element [("property", "og:title"); ("content", "A")]])
    sample_URL_href {| searchParams_url := Some "https://example.com/" |}
  = {| calls := [CallUnfurl (JSString "https://example.com/")];
       settled := Fulfilled {| body := "Bad URL query parameter.";
                               status := 400;
                               content_type := None |} |}.
Proof.
  apply (handleUnfurlRequest_never_fetches
           (serve [meta_element [("property", "og:title"); ("content", "A")]])
           sample_URL_href {| searchParams_url := Some "https://example.com/" |}
           ).
  - reflexivity.
  - discriminate.
Defined.

(** X14.  The handler has no [catch]: its promise rejects exactly when
    it called [unfurl] and [unfurl]'s promise rejected.  Every response
    it does give has status 200, 400 or 422, carries the JSON content
    type exactly when the status is 200, and a result that is not [ok]
    is answered 422 unless its error is [bad-param]. *)
Theorem handler_outcomes
    (unfurl_impl : JSValue -> Run Result) (request : Request) :
  (settled (handleUnfurlRequest_with unfurl_impl request) = Rejected
   <-> exists s, searchParams_url request = Some s
                 /\ s <> EmptyString
                 /\ settled (unfurl_impl (JSString s)) = Rejected)
  /\ (forall response,
        settled (handleUnfurlRequest_with unfurl_impl request)
        = Fulfilled response ->
        (status response = 200 \/ status response = 400
         \/ status response = 422)
        /\ (content_type response = Some "application/json"
            <-> status response = 200))
  /\ (forall result,
        ok result = false -> error result <> Some bad_param ->
        status (respond result) = 422).
Proof.
  split; [|split].
  - unfold handleUnfurlRequest_with.
    destruct (searchParams_url request) as [s|]; simpl.
    + destruct s as [|c s]; simpl.
      * split; [discriminate|]. intros (s' & [= <-] & Hne & _). congruence.
      * split.
        -- intros Hrej. exists (String c s). split; [reflexivity|].
           split; [discriminate|].
           destruct (settled (unfurl_impl (JSString (String c s))));
             [discriminate | reflexivity].
        -- intros (s' & [= <-] & _ & ->). reflexivity.
    + split; [discriminate|]. intros (s' & [=] & _).
  - intros response. unfold handleUnfurlRequest_with.
    assert (forall result,
              (status (respond result) = 200 \/ status (respond result) = 400
               \/ status (respond result) = 422)
              /\ (content_type (respond result) = Some "application/json"
                  <-> status (respond result) = 200)) as Hrespond.
    { intros result. unfold respond.
      destruct (ok result); simpl;
        [split; [by left | split; intros _; reflexivity]|].
      destruct (decide (error result = Some bad_param)); simpl;
        (split; [by auto | split; discriminate]). }
    destruct (searchParams_url request) as [s|]; simpl.
    + destruct s as [|c s]; simpl.
      * intros [= <-]. simpl. split; [by auto | split; discriminate].
      * destruct (settled (unfurl_impl (JSString (String c s))));
          [|discriminate].
        intros [= <-]. apply Hrespond.
    + intros [= <-]. simpl. split; [by auto | split; discriminate].
  - intros result Hok Herr. unfold respond. rewrite Hok.
    by rewrite decide_False.
Qed.

Lemma handler_outcomes_witness :
  settled (handleUnfurlRequest_with
             (fun _ => {| calls := [CallFetch "https://example.com/"];
                          settled := Rejected |})
             {| searchParams_url := Some "https://example.com/" |})
  = Rejected.
Proof.
  apply (handler_outcomes
           (fun _ => {| calls := [CallFetch "https://example.com/"];
                        settled := Rejected |})
           {| searchParams_url := Some "https://example.com/" |}).
  exists "https://example.com/". split; [reflexivity|].
  split; [discriminate | reflexivity].
Defined.

(** ** The body of a 200 response can be read back *)

Lemma unquote_escape (c : ascii) (rest : string) :
  JSON_unquote (String.append (JSON_escape c) rest)
  = match JSON_unquote rest with
    | Some (t, r) => Some (String c t, r)
    | None => None
    end.
Proof. destruct c as [[] [] [] [] [] [] [] []]; reflexivity. Qed.

Lemma unquote_escape_all (s r : string) :
  JSON_unquote (String.append (JSON_escape_all s) (String dquote r))
  = Some (s, r).
Proof.
  induction s as [|c s IH]; [reflexivity|].
  cbn [JSON_escape_all]. by rewrite append_assoc, unquote_escape, IH.
Qed.

Lemma quote_append (s r : string) :
  String.append (JSON_quote s) r
  = String dquote (String.append (JSON_escape_all s) (String dquote r)).
Proof.
  unfold JSON_quote.
  by rewrite append_cons, append_assoc, append_cons, append_empty_l.
Qed.

Lemma read_member_quote (key v r : string) :
  JSON_read_member
    (String.append (JSON_quote key)
       (String.append ":" (String.append (JSON_quote v) r)))
  = Some (key, v, r).
Proof.
  rewrite quote_append, append_cons, append_empty_l, quote_append.
  unfold JSON_read_member.
  rewrite Ascii.eqb_refl, unquote_escape_all.
  cbn [andb]. rewrite !Ascii.eqb_refl. cbn [andb].
  by rewrite unquote_escape_all.
Qed.

Lemma read_members_render (members : list (string * string)) :
  members <> [] ->
  forall fuel,
    length members <= fuel ->
    JSON_read_members fuel (String.append (JSON_render members) "}")
    = Some members.
Proof.
  induction members as [|[key v] rest IH]; [congruence|].
  intros _ fuel Hfuel. destruct fuel as [|fuel]; [simpl in Hfuel; lia|].
  destruct rest as [|kv rest].
  - unfold JSON_render. cbn [map String.concat JSON_read_members fst snd].
    rewrite !append_assoc, read_member_quote. reflexivity.
  - assert (JSON_render ((key, v) :: kv :: rest)
            = String.append
                (String.append (JSON_quote key)
                   (String.append ":" (JSON_quote v)))
                (String.append "," (JSON_render (kv :: rest)))) as ->
      by reflexivity.
    cbn [JSON_read_members].
    rewrite !append_assoc, read_member_quote.
    rewrite append_cons, append_empty_l.
    assert (Ascii.eqb "," "," = true) as -> by reflexivity.
    rewrite IH; [reflexivity | discriminate | simpl in *; lia].
Qed.

Lemma stringify_render (d : UnfurledData) :
  JSON_stringify d
  = String "{" (String.append (JSON_render (present_fields d)) "}").
Proof.
  destruct d as [[t|] [de|] [i|] [f|]]; reflexivity.
Qed.

Lemma present_fields_length (d : UnfurledData) :
  length (present_fields d) <= 4.
Proof. destruct d as [[t|] [de|] [i|] [f|]]; simpl; lia. Qed.

Lemma present_fields_lookup (d : UnfurledData) :
  {| title := lookup_attribute (present_fields d) "title";
     description := lookup_attribute (present_fields d) "description";
     image := lookup_attribute (present_fields d) "image";
     favicon := lookup_attribute (present_fields d) "favicon" |}
  = d.
Proof. destruct d as [[t|] [de|] [i|] [f|]]; reflexivity. Qed.

(** X15.  The body of a 200 response loses nothing: reading it back
    gives the four fields exactly as [unfurl] returned them - absent
    fields absent, present ones with every character restored from its
    escape - so two different values never serialize to the same
    body. *)
Theorem JSON_body_reads_back (d : UnfurledData) :
  JSON_read (JSON_stringify d) = Some d
  /\ JSON_read (body (respond (GoodResult d))) = Some d
  /\ (forall d', JSON_stringify d = JSON_stringify d' -> d = d').
Proof.
  assert (forall x, JSON_read (JSON_stringify x) = Some x) as Hread.
  { intros x. rewrite stringify_render. unfold JSON_read.
    assert (Ascii.eqb "{" "{" = true) as -> by reflexivity.
    destruct (present_fields x) as [|kv rest] eqn:Hfields.
    - destruct x as [[t|] [de|] [i|] [f|]]; try discriminate Hfields.
      reflexivity.
    - rewrite read_members_render.
      + rewrite <- Hfields, present_fields_lookup. reflexivity.
      + discriminate.
      + rewrite <- Hfields. apply present_fields_length. }
  split; [apply Hread|]. split; [apply Hread|].
  intros d' Heq.
  assert (Some d = Some d') as Hsome
    by (rewrite <- (Hread d), <- (Hread d'), Heq; reflexivity).
  by injection Hsome.
Qed.

Lemma JSON_body_reads_back_witness :
  let d := {| title := Some (String dquote "a\b");
              description := None;
              image := Some EmptyString;
              favicon := Some "/x,y}" |} in
  JSON_read (JSON_stringify d) = Some d.
Proof.
  intros d. exact (proj1 (JSON_body_reads_back d)).
Defined.
